(** * decor: a shallow embedding of [decor/decorators.py]

    The five decorators of the library ([class_property], [lazy_property],
    [memoized], [retryable], [timed]) are embedded as Rocq functions, one
    module per decorator, and the properties of the specification are
    proved about them.

    Conventions of the embedding:
    - Python code that may raise returns an [outcome]: [Ret v] for a normal
      return and [Raise e] for an exception that leaves the function;
    - the mutable world the wrapped function and the hooks act on is threaded
      explicitly ([W -> W * ...]);
    - every decorator is instrumented with a trace of [event]s, recorded at
      the call sites of the source, so that "how often was it called, with
      which arguments" is a statement about a list. *)

From Equations Require Import Equations.
From stdpp Require Import base option list gmap strings pretty.
From Stdlib Require Import ZArith Lia.

Local Open Scope string_scope.
Local Open Scope list_scope.
Local Open Scope Z_scope.

(** ** Python exceptions and outcomes *)

(** An exception object: the method resolution order of its class (the class
    itself first, [BaseException] last but one) and its message. *)
Record exn := Exn { exn_mro : list string; exn_msg : string }.

(** [isinstance(e, k)] for a class [k] given by name. *)
Definition isinstance (e : exn) (k : string) : bool :=
  bool_decide (k ∈ exn_mro e).

(** [isinstance(e, tuple(ks))], the test of an [except tuple(ks)] clause. *)
Definition isinstance_any (e : exn) (ks : list string) : bool :=
  existsb (isinstance e) ks.

Definition builtin_exn (cls : list string) (msg : string) : exn :=
  Exn (cls ++ ["Exception"; "BaseException"; "object"]) msg.

Definition AttributeError := builtin_exn ["AttributeError"].
Definition AssertionError := builtin_exn ["AssertionError"].
Definition IndexError := builtin_exn ["IndexError"; "LookupError"].
Definition TypeError := builtin_exn ["TypeError"].
Definition ValueError := builtin_exn ["ValueError"].

Inductive outcome (A : Type) : Type :=
| Ret (a : A)
| Raise (e : exn).
Arguments Ret {A} a.
Arguments Raise {A} e.

(** ** An instrumented state-and-exception monad

    [M W E A]: a computation over the world [W] that appends events of type
    [E] to the trace and ends in an [outcome A]. *)
Definition M (W E A : Type) : Type := W -> W * list E * outcome A.

Definition ret {W E A} (a : A) : M W E A := fun w => (w, [], Ret a).

Definition raise {W E A} (e : exn) : M W E A := fun w => (w, [], Raise e).

Definition bind {W E A B} (m : M W E A) (k : A -> M W E B) : M W E B :=
  fun w =>
    match m w with
    | (w1, t1, Ret a) =>
        match k a w1 with
        | (w2, t2, o) => (w2, t1 ++ t2, o)
        end
    | (w1, t1, Raise e) => (w1, t1, Raise e)
    end.

(** Record one event. *)
Definition emit {W E} (ev : E) : M W E unit := fun w => (w, [ev], Ret tt).

(** Run a caller-supplied function (it sees the world, not the trace). *)
Definition lift {W E A} (f : W -> W * outcome A) : M W E A :=
  fun w => match f w with (w1, o) => (w1, [], o) end.

(** Put the events [t] in front of the trace of a finished run. *)
Definition after {W E A} (t : list E) (r : W * list E * outcome A)
  : W * list E * outcome A :=
  match r with (w, t', o) => (w, t ++ t', o) end.

(** Projections of a finished run. *)
Definition trace_of {W E A} (r : W * list E * A) : list E := r.1.2.
Definition result_of {W E A} (r : W * list E * A) : A := r.2.

Declare Scope py_scope.
Delimit Scope py_scope with py.
Notation "'let!' x ':=' m 'in' k" := (bind m (fun x => k))
  (at level 10, x name, m at level 100, k at level 200) : py_scope.
Notation "'do!' m 'in' k" := (bind m (fun _ => k))
  (at level 10, m at level 100, k at level 200) : py_scope.
Local Open Scope py_scope.

(** A Python function object: its [__name__] and what calling it does. *)
Record pyfunction (F : Type) : Type := Function { fn_name : string; fn_call : F }.
Arguments Function {F} fn_name fn_call.
Arguments fn_name {F} _.
Arguments fn_call {F} _.

(** The double-quote character, and a string between two of them. *)
Definition dquote : string := String (Ascii.ascii_of_nat 34) "".
Definition quoted (s : string) : string := dquote +:+ s +:+ dquote.

(** [l[i]] on a Python list: a negative index counts from the end, an index
    out of range raises [IndexError]. *)
Definition list_getitem {A} (l : list A) (i : Z) : outcome A :=
  let n := Z.of_nat (length l) in
  let j := if i <? 0 then i + n else i in
  if (0 <=? j) && (j <? n) then
    match l !! Z.to_nat j with
    | Some x => Ret x
    | None => Raise (IndexError "list index out of range")
    end
  else Raise (IndexError "list index out of range").

(** ** class_property *)
Module ClassProperty.
Section ObjectModel.
(** [V]: plain attribute values. *)
Context {V : Type}.

(** Lines 25-45: the descriptor class. The wrapped function receives a class
    (here: the name it has in the store). *)
Record WrappedProperty : Type := {
  method_name : string;
  receiver : pyfunction (string -> outcome V)
}.

(** Lines 15-45: [__init__] stores [receiver.__name__]. *)
Definition class_property (receiver : pyfunction (string -> outcome V))
  : WrappedProperty :=
  {| method_name := fn_name receiver; receiver := receiver |}.

(** What a name is bound to in an object's [__dict__]. *)
Inductive attr : Type :=
| Plain (v : V)
| Property (d : WrappedProperty).

(** Instances and classes alike are objects: each has a type, a [__dict__]
    and, when it is a class, its [__mro__] (the class itself first).
    [ob_truth] is the truth value of the object, [bool(x)]: true unless
    [type(x)] defines [__bool__] or [__len__] to say otherwise (for a class,
    that is its metaclass). *)
Record object : Type := Object {
  ob_type : string;
  ob_mro : list string;
  ob_dict : gmap string attr;
  ob_truth : bool
}.

Abbreviation store := (gmap string object).

Definition with_dict (o : object) (d : gmap string attr) : object :=
  {| ob_type := ob_type o; ob_mro := ob_mro o; ob_dict := d; ob_truth := ob_truth o |}.

(** Lines 29-30. *)
Definition __delete__ (self : WrappedProperty) (obj : string) : outcome unit :=
  Raise (AttributeError ("Cannot delete " +:+ quoted (method_name self))).

(** Lines 39-44. *)
Definition __set__ (self : WrappedProperty) (obj : string) (val : V) : outcome unit :=
  Raise (AttributeError ("Cannot set " +:+ quoted (method_name self))).

(** [bool(x)]; [None] is false. *)
Definition truth (σ : store) (x : option string) : bool :=
  match x with
  | Some k =>
      match σ !! k with
      | Some o => ob_truth o
      | None => true
      end
  | None => false
  end.

(** [type(x)]; the type of [None] is [NoneType]. *)
Definition type_of (σ : store) (x : option string) : string :=
  match x ≫= (σ !!.) with
  | Some o => ob_type o
  | None => "NoneType"
  end.

(** Lines 32-37: [receiver(cls or type(obj))]. [cls] is taken when it is
    true, [type(obj)] otherwise; [obj] is [None] when the attribute is read
    on the class. *)
Definition __get__ (σ : store) (self : WrappedProperty) (obj cls : option string)
  : outcome V :=
  let owner :=
    match cls with
    | Some k => if truth σ cls then k else type_of σ obj
    | None => type_of σ obj
    end in
  fn_call (receiver self) owner.

(** The attribute protocol of the language: the lookup of [name] along the
    [__mro__] of the class [cls], first hit wins. *)
Definition type_lookup (σ : store) (cls name : string) : option attr :=
  match σ !! cls with
  | Some k =>
      foldr (fun b later =>
               match σ !! b ≫= (fun o => ob_dict o !! name) with
               | Some a => Some a
               | None => later
               end) None (ob_mro k)
  | None => None
  end.

(** [setattr(x, name, val)], that is [x.name = val]: the name is looked up on
    [type(x)]; a descriptor found there gets the assignment, otherwise the
    value goes into [x.__dict__]. For a class [x], [type(x)] is its
    metaclass. *)
Definition setattr (σ : store) (x name : string) (val : V) : store * outcome unit :=
  match σ !! x with
  | Some o =>
      match type_lookup σ (ob_type o) name with
      | Some (Property d) => (σ, __set__ d x val)
      | _ => (<[x := with_dict o (<[name := Plain val]> (ob_dict o))]> σ, Ret tt)
      end
  | None => (σ, Raise (builtin_exn ["NameError"] x))
  end.

(** [delattr(x, name)], that is [del x.name]. *)
Definition delattr (σ : store) (x name : string) : store * outcome unit :=
  match σ !! x with
  | Some o =>
      match type_lookup σ (ob_type o) name with
      | Some (Property d) => (σ, __delete__ d x)
      | _ =>
          match ob_dict o !! name with
          | Some _ => (<[x := with_dict o (delete name (ob_dict o))]> σ, Ret tt)
          | None => (σ, Raise (AttributeError name))
          end
      end
  | None => (σ, Raise (builtin_exn ["NameError"] x))
  end.

(** [x] is an instance whose class exposes [name] through the descriptor [d]. *)
Definition exposed_on_instance (σ : store) (x name : string) (d : WrappedProperty) : Prop :=
  exists o, σ !! x = Some o /\ type_lookup σ (ob_type o) name = Some (Property d).

(** [x] is a class that exposes [name] through the descriptor [d]. *)
Definition exposed_on_type (σ : store) (x name : string) (d : WrappedProperty) : Prop :=
  type_lookup σ x name = Some (Property d).

End ObjectModel.
Arguments WrappedProperty V : clear implicits.
Arguments attr V : clear implicits.
Arguments object V : clear implicits.
End ClassProperty.

(** ** lazy_property *)
Module LazyProperty.
Section Lazy.
(** [V]: attribute values. An instance is the map of its attributes. *)
Context {V : Type}.

Inductive event : Type :=
| EvCompute.       (* [receiver(self)] was called *)

Abbreviation instance := (gmap string V).

(** [hasattr], [setattr] and [getattr] on the instance. *)
Definition hasattr (key : string) : M instance event bool :=
  fun self => (self, [], Ret (bool_decide (is_Some (self !! key)))).

Definition setattr (key : string) (val : V) : M instance event unit :=
  fun self => (<[key := val]> self, [], Ret tt).

Definition getattr (key : string) : M instance event V :=
  fun self =>
    match self !! key with
    | Some v => (self, [], Ret v)
    | None => (self, [], Raise (AttributeError key))
    end.

Section Decorated.
Variable receiver : pyfunction (instance -> instance * outcome V).

(** Line 58. *)
Definition key : string := "_" +:+ fn_name receiver.

Definition compute : M instance event V :=
  do! emit EvCompute in lift (fn_call receiver).

(** Lines 61-68; [lazy_property] hands it to [property], so reading the
    attribute on an instance runs it on that instance. *)
Definition with_memoization : M instance event V :=
  let! present := hasattr key in
  do! (if negb present then
         let! val := compute in
         setattr key val
       else ret tt) in
  getattr key.

End Decorated.

(** The number of times the wrapped function ran. *)
Definition computations (t : list event) : nat := length t.

End Lazy.
Arguments event : clear implicits.
End LazyProperty.

(** ** memoized *)
Module Memoized.
Section Memo.
(** [Arg]: the positional arguments; [V]: the results; [D]: the type of an
    argument's [__dict__]; [F]: the other state of the instance. *)
Context {Arg V D F : Type}.
(** [str(arg)], [arg.__dict__] when [arg] has one, and [str] of such a dict. *)
Context (str : Arg -> string) (vars : Arg -> option D) (str_dict : D -> string).

Inductive event : Type :=
| EvCompute (args : list Arg).    (* [receiver(self, *args)] was called *)

(** Dictionaries are objects: an attribute or a local variable holds a
    reference to one, and two references to the same dictionary see each
    other's writes. [dicts] gives the contents of the dictionaries by
    identity; [_cache] is the dictionary the attribute [self._cache] is bound
    to ([None]: no such attribute); [fields] is the rest of the instance. The
    wrapped function may change all three: write into a dictionary, bind the
    attribute to another one, delete it. *)
Record instance : Type := Instance {
  _cache : option nat;
  dicts : gmap nat (gmap string V);
  fields : F
}.

(** The contents of the dictionary [d]; one that was never written to is
    empty. *)
Definition dict_at (self : instance) (d : nat) : gmap string V :=
  default ∅ (dicts self !! d).

(** Lines 93-94. *)
Definition generate_arg_key (arg : Arg) : string :=
  match vars arg with
  | None => str arg
  | Some d => str_dict d
  end.

(** Lines 96-97. *)
Definition generate_args_key (args : list Arg) : string :=
  String.concat "" (map generate_arg_key args).

(** Lines 103-104. *)
Definition generate_receiver_key {X} (receiver : pyfunction X) : string :=
  fn_name receiver.

(** Lines 99-101. *)
Definition generate_key {X} (receiver : pyfunction X) (args : list Arg) : string :=
  String.concat "" [generate_receiver_key receiver; generate_args_key args].

(** Lines 108-109: [if not hasattr(self, '_cache'): self._cache = {}]; the
    new dictionary is none of those that exist. *)
Definition prepare (self : instance) : instance :=
  match _cache self with
  | Some _ => self
  | None =>
      let d := fresh (dom (dicts self)) in
      {| _cache := Some d; dicts := <[d := ∅]> (dicts self); fields := fields self |}
  end.

Section Decorated.
Variable receiver : pyfunction (instance -> list Arg -> instance * outcome V).

Definition compute (args : list Arg) : M instance event V :=
  do! emit (EvCompute args) in lift (fun self => fn_call receiver self args).

Definition ensure_cache : M instance event unit :=
  fun self => (prepare self, [], Ret tt).

(** Line 110: [cache = self._cache]. From here on [cache] is this
    dictionary, whatever the attribute is bound to later. *)
Definition get_cache : M instance event nat :=
  fun self =>
    match _cache self with
    | Some d => (self, [], Ret d)
    | None => (self, [], Raise (AttributeError "_cache"))
    end.

(** [key in cache]. *)
Definition cache_has (cache : nat) (key : string) : M instance event bool :=
  fun self => (self, [], Ret (bool_decide (is_Some (dict_at self cache !! key)))).

(** [cache[key] = val]. *)
Definition cache_store (cache : nat) (key : string) (val : V) : M instance event unit :=
  fun self =>
    ({| _cache := _cache self;
        dicts := <[cache := <[key := val]> (dict_at self cache)]> (dicts self);
        fields := fields self |}, [], Ret tt).

(** [cache[key]]. *)
Definition cache_get (cache : nat) (key : string) : M instance event V :=
  fun self =>
    match dict_at self cache !! key with
    | Some v => (self, [], Ret v)
    | None => (self, [], Raise (builtin_exn ["KeyError"; "LookupError"] key))
    end.

(** Lines 107-114. *)
Definition with_memoization (args : list Arg) : M instance event V :=
  do! ensure_cache in
  let! cache := get_cache in
  let key := generate_key receiver args in
  let! known := cache_has cache key in
  do! (if negb known then
         let! val := compute args in
         cache_store cache key val
       else ret tt) in
  cache_get cache key.

End Decorated.

(** The entry under [key] of the dictionary [self._cache] is bound to, if
    any. *)
Definition cached (self : instance) (key : string) : option V :=
  _cache self ≫= (fun d => dict_at self d !! key).

(** The wrapped function leaves the cache attribute bound, to a dictionary
    that has what the one it was bound to had; it may add entries (calls of
    memoized methods inside it do). *)
Definition keeps_cache (receiver : pyfunction (instance -> list Arg -> instance * outcome V))
  : Prop :=
  forall self args self' o d,
    fn_call receiver self args = (self', o) ->
    _cache self = Some d ->
    exists d', _cache self' = Some d' /\ dict_at self d ⊆ dict_at self' d'.

(** The wrapped function leaves the cache attribute bound to the same
    dictionary and takes no entry out of it. *)
Definition keeps_cache_dict
    (receiver : pyfunction (instance -> list Arg -> instance * outcome V)) : Prop :=
  forall self args self' o d,
    fn_call receiver self args = (self', o) ->
    _cache self = Some d ->
    _cache self' = Some d /\ dict_at self d ⊆ dict_at self' d.

End Memo.
Arguments event : clear implicits.
Arguments instance : clear implicits.
End Memoized.

(** ** retryable *)
Module Retryable.
Section Retry.
(** [Obj]: the receiver object [self]; [Args]: the [*args, **kwargs] of a
    call; [T]: what the wrapped function returns; [W]: the world. *)
Context {Obj Args T W : Type}.

Inductive event : Type :=
| EvInvoke (o : outcome T)          (* [receiver(self, *args, **kwargs)], and how it ended *)
| EvOnSuccess (total_attempts : Z)
| EvShouldRetry (attempt : Z) (e : exn)
| EvOnRetry (attempt : Z) (e : exn)
| EvSleepTime (retry_attempt : Z) (e : exn)
| EvSleep (seconds : Z)             (* [time.sleep] started to wait *)
| EvOnFailure (total_attempts : Z) (e : option exn).

(** The keyword arguments of [retryable] as the caller passes them;
    [None] is Python's [None]. *)
Record kwargs : Type := Kwargs {
  kw_handled_exception_types : option (list string);
  kw_max_retries : option Z;
  kw_sleep_times : option (list Z);
  kw_on_retry_callback : option (Obj -> Z -> exn -> W -> W * outcome unit);
  kw_on_success_callback : option (Obj -> Z -> W -> W * outcome unit);
  kw_on_failure_callback : option (Obj -> Z -> option exn -> W -> W * outcome unit);
  kw_should_retry_callback : option (Obj -> Z -> exn -> W -> W * outcome bool);
  kw_sleep_time_callback : option (Obj -> Z -> exn -> W -> W * outcome Z)
}.

(** What [with_retry] closes over once lines 162-211 have run. *)
Record closure : Type := Closure {
  handled_exception_types : list string;
  max_attempts : Z;
  on_retry_callback : Obj -> Z -> exn -> W -> W * outcome unit;
  on_success_callback : Obj -> Z -> W -> W * outcome unit;
  on_failure_callback : Obj -> Z -> option exn -> W -> W * outcome unit;
  should_retry_callback : Obj -> Z -> exn -> W -> W * outcome bool;
  sleep_time_callback : Obj -> Z -> exn -> W -> W * outcome Z
}.

(** Lines 165-166: [if max_retries is None: max_retries = 3]. *)
Definition max_retries (kw : kwargs) : Z :=
  match kw_max_retries kw with
  | None => 3
  | Some n => n
  end.

(** Lines 170-175: [if not sleep_times: sleep_times = [0, 1, 2]]. *)
Definition sleep_times (kw : kwargs) : list Z :=
  match kw_sleep_times kw with
  | None | Some [] => [0; 1; 2]
  | Some l => l
  end.

(** Lines 162-211. *)
Definition configure (kw : kwargs) : closure :=
  let max_attempts := max_retries kw + 1 in
  {| handled_exception_types :=
       match kw_handled_exception_types kw with
       | None | Some [] => ["Exception"]
       | Some ks => ks
       end;
     max_attempts := max_attempts;
     on_retry_callback :=
       match kw_on_retry_callback kw with
       | Some f => f
       | None => fun _ _ _ w => (w, Ret tt)
       end;
     on_success_callback :=
       match kw_on_success_callback kw with
       | Some f => f
       | None => fun _ _ w => (w, Ret tt)
       end;
     on_failure_callback :=
       match kw_on_failure_callback kw with
       | Some f => f
       | None => fun _ _ _ w => (w, Ret tt)
       end;
     should_retry_callback :=
       match kw_should_retry_callback kw with
       | Some f => f
       | None => fun _ attempt _ w => (w, Ret (attempt <? max_attempts))
       end;
     sleep_time_callback :=
       match kw_sleep_time_callback kw with
       | Some f => f
       | None => fun _ retry_attempt _ w => (w, list_getitem (sleep_times kw) retry_attempt)
       end |}.

(** [time.sleep(d)]: a negative duration raises [ValueError]. *)
Definition time_sleep (d : Z) : M W event unit :=
  if d <? 0 then raise (ValueError "sleep length must be non-negative")
  else emit (EvSleep d).

Section Decorated.
Variable c : closure.
Variable receiver : Obj -> Args -> W -> W * outcome T.

(** The calls [with_retry] makes, each recorded in the trace. *)
Definition invoke (self : Obj) (args : Args) : M W event T :=
  fun w => match receiver self args w with (w1, o) => (w1, [EvInvoke o], o) end.

Definition on_success (self : Obj) (total : Z) : M W event unit :=
  do! emit (EvOnSuccess total) in lift (on_success_callback c self total).

Definition should_retry (self : Obj) (attempt : Z) (e : exn) : M W event bool :=
  do! emit (EvShouldRetry attempt e) in lift (should_retry_callback c self attempt e).

Definition on_retry (self : Obj) (attempt : Z) (e : exn) : M W event unit :=
  do! emit (EvOnRetry attempt e) in lift (on_retry_callback c self attempt e).

Definition sleep_time (self : Obj) (retry_attempt : Z) (e : exn) : M W event Z :=
  do! emit (EvSleepTime retry_attempt e) in lift (sleep_time_callback c self retry_attempt e).

Definition on_failure (self : Obj) (total : Z) (e : option exn) : M W event unit :=
  do! emit (EvOnFailure total e) in lift (on_failure_callback c self total e).

(** Lines 224-231, the [try] block ([attempt] is already incremented). *)
Definition try_block (self : Obj) (args : Args) (attempt : Z) : M W event T :=
  let! result := invoke self args in
  do! on_success self attempt in
  ret result.

(** How the body of an [except] clause leaves: on to the next iteration,
    or out of the loop by [break]. *)
Inductive flow : Type := Continue | Break.

(** Lines 233-250, the [except] block. *)
Definition except_block (self : Obj) (attempt : Z) (e : exn) : M W event flow :=
  let! go := should_retry self attempt e in
  if negb go then ret Break
  else
    do! on_retry self attempt e in
    let! d := sleep_time self (attempt - 1) e in
    do! time_sleep d in
    ret Continue.

(** Lines 251-256, after the loop. [raise None] is a [TypeError]. *)
Definition after_loop (self : Obj) (attempt : Z) (last_exception : option exn)
  : M W event T :=
  do! on_failure self attempt last_exception in
  match last_exception with
  | Some e => raise e
  | None => raise (TypeError "exceptions must derive from BaseException")
  end.

(** How one iteration of the [while] loop ends. *)
Inductive iteration_end : Type :=
| Returned (result : T)            (* [return result] *)
| Escaped (e : exn)                (* an exception leaves [with_retry] *)
| Again (last_exception : exn)     (* the [except] block ran to its end *)
| Broke (last_exception : exn).    (* [break] *)

(** Lines 223-250: one iteration, for the incremented [attempt]. An
    exception of the [try] block that is an instance of a handled type
    enters the [except] block; any other, and any exception of the
    [except] block itself, leaves the function. *)
Definition iteration (self : Obj) (args : Args) (attempt : Z) (w : W)
  : W * list event * iteration_end :=
  match try_block self args attempt w with
  | (w1, t1, Ret result) => (w1, t1, Returned result)
  | (w1, t1, Raise e) =>
      if isinstance_any e (handled_exception_types c) then
        match except_block self attempt e w1 with
        | (w2, t2, Ret Continue) => (w2, t1 ++ t2, Again e)
        | (w2, t2, Ret Break) => (w2, t1 ++ t2, Broke e)
        | (w2, t2, Raise e') => (w2, t1 ++ t2, Escaped e')
        end
      else (w1, t1, Escaped e)
  end.

(** Lines 222-256: the [while] loop and what follows it. *)
Equations? while_loop (self : Obj) (args : Args) (attempt : Z)
  (last_exception : option exn) (w : W) : W * list event * outcome T
  by wf (Z.to_nat (max_attempts c - attempt)) lt :=
while_loop self args attempt last_exception w with Z_lt_dec attempt (max_attempts c) := {
  | right _ => after_loop self attempt last_exception w
  | left _ with iteration self args (attempt + 1) w := {
      | (w1, t1, Returned result) => (w1, t1, Ret result)
      | (w1, t1, Escaped e) => (w1, t1, Raise e)
      | (w1, t1, Broke e) => after t1 (after_loop self (attempt + 1) (Some e) w1)
      | (w1, t1, Again e) => after t1 (while_loop self args (attempt + 1) (Some e) w1) } }.
Proof. lia. Qed.

(** Lines 215-256. *)
Definition with_retry (self : Obj) (args : Args) : M W event T :=
  while_loop self args 0 None.

End Decorated.

(** The decorated function, [retryable(...)(receiver)]. *)
Definition retryable (kw : kwargs) (receiver : Obj -> Args -> W -> W * outcome T)
  : Obj -> Args -> M W event T :=
  with_retry (configure kw) receiver.

(** The same keyword arguments with another [handled_exception_types]. *)
Definition with_handled_exception_types (h : option (list string)) (kw : kwargs)
  : kwargs :=
  {| kw_handled_exception_types := h;
     kw_max_retries := kw_max_retries kw;
     kw_sleep_times := kw_sleep_times kw;
     kw_on_retry_callback := kw_on_retry_callback kw;
     kw_on_success_callback := kw_on_success_callback kw;
     kw_on_failure_callback := kw_on_failure_callback kw;
     kw_should_retry_callback := kw_should_retry_callback kw;
     kw_sleep_time_callback := kw_sleep_time_callback kw |}.

(** The retry policy is the default one: which exceptions are handled, how
    often to retry, how long to wait and the two deciding callbacks are left
    to their defaults. The three hooks that only observe may be supplied. *)
Definition default_policy (kw : kwargs) : Prop :=
  kw_handled_exception_types kw = None /\
  kw_max_retries kw = None /\
  kw_sleep_times kw = None /\
  kw_should_retry_callback kw = None /\
  kw_sleep_time_callback kw = None.

(** The observing hooks return normally whenever they are called. *)
Definition hooks_return (c : closure) : Prop :=
  (forall self n e w, exists w', on_retry_callback c self n e w = (w', Ret tt)) /\
  (forall self n w, exists w', on_success_callback c self n w = (w', Ret tt)) /\
  (forall self n e w, exists w', on_failure_callback c self n e w = (w', Ret tt)).

(** *** Reading a trace *)

Definition invocations (t : list event) : list (outcome T) :=
  omap (fun ev => match ev with EvInvoke o => Some o | _ => None end) t.

Definition on_success_calls (t : list event) : list Z :=
  omap (fun ev => match ev with EvOnSuccess n => Some n | _ => None end) t.

Definition should_retry_calls (t : list event) : list (Z * exn) :=
  omap (fun ev => match ev with EvShouldRetry n e => Some (n, e) | _ => None end) t.

Definition on_retry_calls (t : list event) : list (Z * exn) :=
  omap (fun ev => match ev with EvOnRetry n e => Some (n, e) | _ => None end) t.

Definition sleep_time_calls (t : list event) : list (Z * exn) :=
  omap (fun ev => match ev with EvSleepTime n e => Some (n, e) | _ => None end) t.

Definition waits (t : list event) : list Z :=
  omap (fun ev => match ev with EvSleep d => Some d | _ => None end) t.

Definition on_failure_calls (t : list event) : list (Z * option exn) :=
  omap (fun ev => match ev with EvOnFailure n e => Some (n, e) | _ => None end) t.

End Retry.
Arguments event : clear implicits.
Arguments kwargs : clear implicits.
Arguments closure : clear implicits.
End Retryable.

(** ** timed *)
Module Timed.
Section Timing.
(** [Obj], [Args], [T], [W] as for [retryable]; [Num]: the numbers
    ([time.time()] readings, durations, sample rates). *)
Context {Obj Args T W Num : Type}.
(** [time.time()], [(t1 - t0) * 1000.0] and [1.0]. *)
Context (time_time : W -> W * Num) (elapsed_ms : Num -> Num -> Num) (one : Num).

Inductive event : Type :=
| EvInvoke (o : outcome T)                                   (* the wrapped call, and how it ended *)
| EvRecordTiming (stat_name : string) (total_time sample_rate : Num).

(** A statistics client: an object with its truth value, [bool(client)],
    that may or may not have a [record_timing] method. *)
Record client : Type := Client {
  client_truth : bool;
  record_timing : option (string -> Num -> Num -> W -> W * outcome unit)
}.

Section Decorated.
(** The closure of [with_timing]: the client's method, and lines 280-281. *)
Variable record : string -> Num -> Num -> W -> W * outcome unit.
Variable prefix : string.
Variable sample_rate : Num.
Variable receiver : pyfunction (Obj -> Args -> W -> W * outcome T).

(** Lines 285-303. *)
Definition with_timing (self : Obj) (args : Args) : M W event T :=
  let stat_name := prefix +:+ fn_name receiver in
  let! start_time := lift (fun w => let (w1, t) := time_time w in (w1, Ret t)) in
  let! result :=
    (fun w => match fn_call receiver self args w with
              | (w1, o) => (w1, [EvInvoke o], o)
              end) in
  let! end_time := lift (fun w => let (w1, t) := time_time w in (w1, Ret t)) in
  let total_time := elapsed_ms end_time start_time in
  do! emit (EvRecordTiming stat_name total_time sample_rate) in
  do! lift (record stat_name total_time sample_rate) in
  ret result.

End Decorated.

(** Line 278: [stats_client and hasattr(stats_client, 'record_timing')],
    and the method when the test passes. [None] is false. *)
Definition usable (stats_client : option client)
  : option (string -> Num -> Num -> W -> W * outcome unit) :=
  match stats_client with
  | Some c => if client_truth c then record_timing c else None
  | None => None
  end.

(** Lines 261-305: [timed(stats_client, prefix, sample_rate)], the decorator
    or the [AssertionError] of line 278. *)
Definition timed (stats_client : option client) (prefix : option string)
  (sample_rate : option Num)
  : outcome (pyfunction (Obj -> Args -> W -> W * outcome T) -> Obj -> Args -> M W event T) :=
  match usable stats_client with
  | None => Raise (AssertionError "")
  | Some record =>
      let prefix := match prefix with Some p => p +:+ "." | None => "" end in
      let sample_rate := match sample_rate with Some r => r | None => one end in
      Ret (with_timing record prefix sample_rate)
  end.

(** The samples handed to [record_timing]. *)
Definition samples (t : list event) : list (string * Num * Num) :=
  omap (fun ev => match ev with
                  | EvRecordTiming n d r => Some (n, d, r)
                  | _ => None
                  end) t.

End Timing.
Arguments event : clear implicits.
Arguments client : clear implicits.
End Timed.

(** ** Sample programs

    Small decorated programs, used below to run the embedding. *)
Module Samples.

(** *** A class with a class property, and an instance of it

    [[
    class C(object):
        @class_property
        def x(cls): return 1
    c = C()
    ]] *)
Definition x_function : pyfunction (string -> outcome Z) :=
  Function "x" (fun _ => Ret 1).

Definition class_store : gmap string (ClassProperty.object Z) :=
  <["c" := ClassProperty.Object "C" [] ∅ true]>
    (<["C" := ClassProperty.Object "type" ["C"; "object"]
                {["x" := ClassProperty.Property (ClassProperty.class_property x_function)]}
                true]>
       (<["type" := ClassProperty.Object "type" ["type"; "object"] ∅ true]>
          (<["object" := ClassProperty.Object "type" ["object"] ∅ true]> ∅))).

(** *** A lazy property whose computation gives a new value each time

    [[
    @lazy_property
    def ticket(self):
        self.issued = self.issued + 1     # starting from 0
        return self.issued
    ]] *)
Definition ticket : pyfunction (gmap string Z -> gmap string Z * outcome Z) :=
  Function "ticket"
    (fun self =>
       let issued := default 0 (self !! "issued") + 1 in
       (<["issued" := issued]> self, Ret issued)).

(** *** A memoized method of one integer argument

    [[
    @memoized
    def square(self, n): return n * n
    ]]
    An [int] has no [__dict__]; [str] of it is its decimal notation. *)
Definition square
  : pyfunction (Memoized.instance Z unit -> list Z -> Memoized.instance Z unit * outcome Z) :=
  Function "square"
    (fun self args =>
       match args with
       | [n] => (self, Ret (n * n))
       | _ => (self, Raise (TypeError "square() takes exactly 2 arguments"))
       end).

Definition str_int (n : Z) : string := pretty n.
Definition vars_int (n : Z) : option unit := None.
Definition str_no_dict (d : unit) : string := "{}".

Definition memoized_square
  : list Z -> M (Memoized.instance Z unit) (Memoized.event Z) Z :=
  Memoized.with_memoization str_int vars_int str_no_dict square.

(** The instance before any call, after [square(3)], and after [square(4)]
    as well. *)
Definition fresh_instance : Memoized.instance Z unit := Memoized.Instance None ∅ tt.
Definition instance_with_9 : Memoized.instance Z unit :=
  Memoized.Instance (Some 0%nat) {[0%nat := {["square3" := 9]}]} tt.
Definition instance_with_9_and_16 : Memoized.instance Z unit :=
  Memoized.Instance (Some 0%nat) {[0%nat := <["square4" := 16]> {["square3" := 9]}]} tt.

(** *** A memoized method whose argument is an object

    [[
    class Point(object):
        def __init__(self, x, y): self.x = x; self.y = y

    @memoized
    def norm(self, p): return abs(p.x) + abs(p.y)
    ]]
    Two points are two objects, also when their fields are equal; [str] of a
    point shows which object it is, its [__dict__] does not. *)
Record point : Type := Point { point_id : nat; point_x : Z; point_y : Z }.

Definition str_point (p : point) : string :=
  "<Point object at " +:+ pretty (point_id p) +:+ ">".
Definition vars_point (p : point) : option (Z * Z) := Some (point_x p, point_y p).
Definition str_point_dict (d : Z * Z) : string :=
  "{'x': " +:+ pretty d.1 +:+ ", 'y': " +:+ pretty d.2 +:+ "}".

Definition norm
  : pyfunction (Memoized.instance Z unit -> list point -> Memoized.instance Z unit * outcome Z) :=
  Function "norm"
    (fun self args =>
       match args with
       | [p] => (self, Ret (Z.abs (point_x p) + Z.abs (point_y p)))
       | _ => (self, Raise (TypeError "norm() takes exactly 2 arguments"))
       end).

Definition memoized_norm
  : list point -> M (Memoized.instance Z unit) (Memoized.event point) Z :=
  Memoized.with_memoization str_point vars_point str_point_dict norm.

(** The instance after [norm(Point(3, -4))]. *)
Definition instance_with_norm : Memoized.instance Z unit :=
  Memoized.Instance (Some 0%nat) {[0%nat := {["norm{'x': 3, 'y': -4}" := 7]}]} tt.

(** *** Retried operations; the world counts the calls made so far *)
Definition boom : exn := ValueError "boom".
Definition interrupt : exn := Exn ["KeyboardInterrupt"; "BaseException"; "object"] "".

Definition default_kwargs : Retryable.kwargs unit nat :=
  Retryable.Kwargs None None None None None None None None.

Definition zero_retries_kwargs : Retryable.kwargs unit nat :=
  Retryable.Kwargs None (Some 0) None None None None None None.

(** [max_retries=-2]. *)
Definition negative_retries_kwargs : Retryable.kwargs unit nat :=
  Retryable.Kwargs None (Some (-2)) None None None None None None.

(** [max_retries=0, should_retry_callback=lambda self, attempt, e: True]. *)
Definition eager_kwargs : Retryable.kwargs unit nat :=
  Retryable.Kwargs None (Some 0) None None None None
    (Some (fun _ _ _ w => (w, Ret true))) None.

(** [max_retries=4], with the three sleep times of the default. *)
Definition four_retries_kwargs : Retryable.kwargs unit nat :=
  Retryable.Kwargs None (Some 4) None None None None None None.

(** [handled_exception_types=(KeyError,)]. *)
Definition key_error_kwargs : Retryable.kwargs unit nat :=
  Retryable.Kwargs (Some ["KeyError"]) None None None None None None None.

(** [on_success_callback] raises. *)
Definition failing_success_hook_kwargs : Retryable.kwargs unit nat :=
  Retryable.Kwargs None (Some 1) None None
    (Some (fun _ _ w => (w, Raise (ValueError "hook")))) None None None.

Definition always_returning (self args : unit) (w : nat) : nat * outcome Z :=
  (S w, Ret 42).

Definition always_failing (self args : unit) (w : nat) : nat * outcome Z :=
  (S w, Raise boom).

Definition failing_once (self args : unit) (w : nat) : nat * outcome Z :=
  (S w, match w with O => Raise boom | _ => Ret 42 end).

Definition failing_then_interrupted (self args : unit) (w : nat) : nat * outcome Z :=
  (S w, match w with O => Raise boom | _ => Raise interrupt end).

(** What a default run records for a first attempt that fails with [boom]. *)
Definition first_attempt_failed : list (Retryable.event Z) :=
  [Retryable.EvInvoke (Raise boom); Retryable.EvShouldRetry 1 boom;
   Retryable.EvOnRetry 1 boom; Retryable.EvSleepTime 0 boom; Retryable.EvSleep 0].

(** *** A timed operation; the world is a clock that ticks when read *)
Definition clock (w : nat) : nat * Z := (S w, Z.of_nat w).
Definition milliseconds (t1 t0 : Z) : Z := (t1 - t0) * 1000.

Definition null_client : Timed.client nat Z :=
  Timed.Client true (Some (fun _ _ _ w => (w, Ret tt))).

(** [timed(stats_client=null_client, prefix='db')]. *)
Definition timed_db
  : pyfunction (unit -> unit -> nat -> nat * outcome Z) -> unit -> unit ->
    M nat (Timed.event Z Z) Z :=
  Timed.with_timing clock milliseconds (fun _ _ _ w => (w, Ret tt)) "db." 1.

Definition fetch : pyfunction (unit -> unit -> nat -> nat * outcome Z) :=
  Function "fetch" (fun _ _ w => (w, Ret 7)).

Definition fetch_failing : pyfunction (unit -> unit -> nat -> nat * outcome Z) :=
  Function "fetch" (fun _ _ w => (w, Raise boom)).

End Samples.

(** ** Reading attributes, and callers of the decorated functions *)

(** [getattr(x, name)] for the objects of [ClassProperty]. *)
Module AttributeRead.
Section Read.
Import ClassProperty.
Context {V : Type}.

Definition outcome_map {A B} (f : A -> B) (o : outcome A) : outcome B :=
  match o with
  | Ret a => Ret (f a)
  | Raise e => Raise e
  end.

(** [x.name]. A descriptor found on [type(x)] is asked first, with the
    object and its type. Otherwise an instance answers from its [__dict__]
    and a class from its own [__mro__], where a descriptor is asked with
    [None] for the object and the class itself for the type; what was found
    on [type(x)] comes last. *)
Definition getattr (σ : gmap string (object V)) (x name : string) : outcome (attr V) :=
  match σ !! x with
  | Some o =>
      match type_lookup σ (ob_type o) name with
      | Some (Property d) =>
          outcome_map Plain (__get__ σ d (Some x) (Some (ob_type o)))
      | on_type =>
          let own :=
            match ob_mro o with
            | [] => ob_dict o !! name
            | _ :: _ => type_lookup σ x name
            end in
          match own, ob_mro o with
          | Some (Property d), _ :: _ => outcome_map Plain (__get__ σ d None (Some x))
          | Some a, _ => Ret a
          | None, _ =>
              match on_type with
              | Some a => Ret a
              | None => Raise (AttributeError name)
              end
          end
      end
  | None => Raise (builtin_exn ["NameError"] x)
  end.

End Read.
End AttributeRead.

(** A caller that reads a lazy property [n] times in a row and collects the
    values. *)
Module LazyReads.
Section Reads.
Context {V : Type}.

Fixpoint read_times (receiver : pyfunction (gmap string V -> gmap string V * outcome V))
  (n : nat) : M (gmap string V) LazyProperty.event (list V) :=
  match n with
  | O => ret []
  | S n =>
      let! v := LazyProperty.with_memoization receiver in
      let! vs := read_times receiver n in
      ret (v :: vs)
  end.

End Reads.
End LazyReads.

(** What the callbacks of [retryable] may be handed. *)
Module RetryEvents.
Section Events.
Import Retryable.
Context {Obj W T : Type}.

(** The event belongs to the iteration that made attempt number [attempt]:
    the hooks and the predicate get that number, the sleep-time provider the
    number before it; the failure hook is not called inside the loop. *)
Definition of_attempt (attempt : Z) (ev : event T) : Prop :=
  match ev with
  | EvInvoke _ | EvSleep _ => True
  | EvOnSuccess n | EvShouldRetry n _ | EvOnRetry n _ => n = attempt
  | EvSleepTime i _ => i = attempt - 1
  | EvOnFailure _ _ => False
  end.

(** The numbers in the event are attempt numbers of a run with at most [m]
    attempts: hooks and predicate see 1..m, the provider an index 0..m-1, the
    failure hook 0..m. *)
Definition in_range (m : Z) (ev : event T) : Prop :=
  match ev with
  | EvInvoke _ | EvSleep _ => True
  | EvOnSuccess n | EvShouldRetry n _ | EvOnRetry n _ => 1 <= n <= m
  | EvSleepTime i _ => 0 <= i < m
  | EvOnFailure n _ => 0 <= n <= Z.max 0 m
  end.

End Events.
End RetryEvents.

(** ** More sample programs *)
Module MoreSamples.
Import Samples.

(** [[
    class Base(object):
        @class_property
        def x(cls): return len(cls.__name__)
    class Derived(Base): pass
    d = Derived(); d.__dict__['x'] = 9
    ]] *)
Definition name_length : pyfunction (string -> outcome Z) :=
  Function "x" (fun cls => Ret (Z.of_nat (String.length cls))).

Definition named_store : gmap string (ClassProperty.object Z) :=
  <["d" := ClassProperty.Object "Derived" [] {["x" := ClassProperty.Plain 9]} true]>
    (<["Derived" := ClassProperty.Object "type" ["Derived"; "Base"; "object"] ∅ true]>
       (<["Base" := ClassProperty.Object "type" ["Base"; "object"]
                    {["x" := ClassProperty.Property (ClassProperty.class_property name_length)]}
                    true]>
          (<["type" := ClassProperty.Object "type" ["type"; "object"] ∅ true]>
             (<["object" := ClassProperty.Object "type" ["object"] ∅ true]> ∅)))).

(** The same, for a class whose metaclass makes it false:
    [[
    class Meta(type):
        def __bool__(cls): return False
    class Empty(Base, metaclass=Meta): pass
    e = Empty()
    ]] *)
Definition false_class_store : gmap string (ClassProperty.object Z) :=
  <["e" := ClassProperty.Object "Empty" [] ∅ true]>
    (<["Empty" := ClassProperty.Object "Meta" ["Empty"; "Base"; "object"] ∅ false]>
       (<["Meta" := ClassProperty.Object "type" ["Meta"; "type"; "object"] ∅ true]>
          named_store)).

(** A lazy property whose computation fails, and one that shares its name
    with [ticket]. *)
Definition broken : pyfunction (gmap string Z -> gmap string Z * outcome Z) :=
  Function "broken"
    (fun self => (<["tried" := default 0 (self !! "tried") + 1]> self, Raise boom)).

Definition other_ticket : pyfunction (gmap string Z -> gmap string Z * outcome Z) :=
  Function "ticket" (fun self => (self, Ret 100)).

(** Two memoized methods whose keys can meet: [get(12)] and [get1(2)]. *)
Definition get
  : pyfunction (Memoized.instance Z unit -> list Z -> Memoized.instance Z unit * outcome Z) :=
  Function "get" (fun self args => (self, Ret 1)).

Definition get1
  : pyfunction (Memoized.instance Z unit -> list Z -> Memoized.instance Z unit * outcome Z) :=
  Function "get1" (fun self args => (self, Ret 2)).

(** A memoized method that binds [self._cache] to a copy of the dictionary:
    [[
    @memoized
    def detach(self, n):
        self._cache = dict(self._cache)
        return n
    ]] *)
Definition detach
  : pyfunction (Memoized.instance Z unit -> list Z -> Memoized.instance Z unit * outcome Z) :=
  Function "detach"
    (fun self args =>
       match Memoized._cache self, args with
       | Some d, [n] =>
           let copy := fresh (dom (Memoized.dicts self)) in
           (Memoized.Instance (Some copy)
              (<[copy := Memoized.dict_at self d]> (Memoized.dicts self)) tt,
            Ret n)
       | None, [n] => (self, Raise (AttributeError "_cache"))
       | _, _ => (self, Raise (TypeError "detach() takes exactly 2 arguments"))
       end).

(** A memoized method that fails on negative arguments. *)
Definition root
  : pyfunction (Memoized.instance Z unit -> list Z -> Memoized.instance Z unit * outcome Z) :=
  Function "root"
    (fun self args =>
       match args with
       | [n] => (self, if n <? 0 then Raise boom else Ret (Z.sqrt n))
       | _ => (self, Raise (TypeError "root() takes exactly 2 arguments"))
       end).

(** [max_retries=5, sleep_times=[1, 1, 2, 3, 5, 8]] and
    [max_retries=5, sleep_times=[1, 2]]. *)
Definition long_schedule_kwargs : Retryable.kwargs unit nat :=
  Retryable.Kwargs None (Some 5) (Some [1; 1; 2; 3; 5; 8]) None None None None None.

Definition short_schedule_kwargs : Retryable.kwargs unit nat :=
  Retryable.Kwargs None (Some 5) (Some [1; 2]) None None None None None.

(** [should_retry_callback=lambda self, attempt, e: False]. *)
Definition veto_kwargs : Retryable.kwargs unit nat :=
  Retryable.Kwargs None None None None None None
    (Some (fun _ _ _ w => (w, Ret false))) None.

(** [should_retry_callback] raises. *)
Definition failing_predicate_kwargs : Retryable.kwargs unit nat :=
  Retryable.Kwargs None None None None None None
    (Some (fun _ _ _ w => (w, Raise interrupt))) None.

(** A statistics client whose [record_timing] fails. *)
Definition failing_client : Timed.client nat Z :=
  Timed.Client true (Some (fun _ _ _ w => (w, Raise boom))).

End MoreSamples.

(** * Properties *)

(** The trace of a sequence starts with the trace of its first part. *)
Lemma trace_of_bind {W E A B} (m : M W E A) (k : A -> M W E B) (w : W) :
  exists rest, trace_of (bind m k w) = trace_of (m w) ++ rest.
Proof.
  unfold bind, trace_of. destruct (m w) as [[w1 t1] [a | e]]; cbn.
  - destruct (k a w1) as [[w2 t2] o]. cbn. eexists. reflexivity.
  - exists []. rewrite app_nil_r. reflexivity.
Qed.

(** ** retryable *)
Section RetryableProperties.
Import Retryable.
Context {Obj Args T W : Type}.
Implicit Types (kw : kwargs Obj W) (c : closure Obj W).
Implicit Types (receiver : Obj -> Args -> W -> W * outcome T).
Implicit Types (t : list (event T)) (w : W) (e : exn).

(** The loop, unfolded by one iteration. *)
Lemma while_loop_unfold c receiver self args attempt last w :
  while_loop c receiver self args attempt last w =
  if Z_lt_dec attempt (max_attempts c) then
    match iteration c receiver self args (attempt + 1) w with
    | (w1, t1, Returned result) => (w1, t1, Ret result)
    | (w1, t1, Escaped e) => (w1, t1, Raise e)
    | (w1, t1, Broke e) => after t1 (after_loop c self (attempt + 1) (Some e) w1)
    | (w1, t1, Again e) =>
        after t1 (while_loop c receiver self args (attempt + 1) (Some e) w1)
    end
  else after_loop c self attempt last w.
Proof.
  simp while_loop.
  destruct (Z_lt_dec attempt (max_attempts c)); simpl; [|reflexivity].
  destruct (iteration c receiver self args (attempt + 1) w) as [[w1 t1] []];
    reflexivity.
Qed.

(** Reading a trace distributes over concatenation. *)
Lemma invocations_app t1 t2 :
  invocations (t1 ++ t2) = invocations t1 ++ invocations t2.
Proof. apply omap_app. Qed.

Lemma invocations_invoke (o : outcome T) t :
  invocations (EvInvoke o :: t) = o :: invocations t.
Proof. reflexivity. Qed.

(** The [except] block never calls the wrapped function. *)
Lemma except_block_invocations c self attempt e w :
  invocations (T := T) (trace_of (except_block c self attempt e w)) = [].
Proof.
  unfold except_block, should_retry, on_retry, sleep_time, time_sleep,
    trace_of, bind, emit, lift, ret, raise.
  cbn.
  destruct (should_retry_callback c self attempt e w) as [w1 [[] | e1]]; cbn;
    try reflexivity.
  destruct (on_retry_callback c self attempt e w1) as [w2 [[] | e2]]; cbn;
    try reflexivity.
  destruct (sleep_time_callback c self (attempt - 1) e w2) as [w3 [d | e3]]; cbn;
    try reflexivity.
  destruct (d <? 0); reflexivity.
Qed.

(** Neither does the code after the loop. *)
Lemma after_loop_invocations c self attempt last w :
  invocations (T := T) (trace_of (after_loop c self attempt last w)) = [].
Proof.
  unfold after_loop, on_failure, trace_of, bind, emit, lift, raise. cbn.
  destruct (on_failure_callback c self attempt last w) as [w1 [[] | e1]]; cbn;
    [destruct last|]; reflexivity.
Qed.

(** The [try] block calls it once, first of all; the hook that follows a
    normal return is the only other call it makes. *)
Lemma try_block_shape c receiver self args attempt w :
  exists w1 o rest,
    receiver self args w = (w1, o) /\
    trace_of (try_block c receiver self args attempt w) = EvInvoke o :: rest /\
    invocations rest = [] /\
    (forall e, o = Raise e ->
       try_block c receiver self args attempt w = (w1, [EvInvoke o], Raise e)).
Proof.
  unfold try_block, invoke, on_success, trace_of, bind, emit, lift, ret.
  destruct (receiver self args w) as [w1 [r | e]]; cbn.
  - destruct (on_success_callback c self attempt w1) as [w2 [[] | e2]]; cbn;
      eexists _, _, _; (split; [reflexivity|]); (split; [reflexivity|]);
      (split; [reflexivity|]); intros; discriminate.
  - eexists _, _, _; (split; [reflexivity|]); (split; [reflexivity|]);
      (split; [reflexivity|]). intros e' [= <-]. reflexivity.
Qed.

(** An iteration calls the wrapped function exactly once, first of all. An
    exception of that call that is not handled ends the iteration and the
    function on the spot. *)
Lemma iteration_shape c receiver self args attempt w :
  exists o rest,
    trace_of (iteration c receiver self args attempt w) = EvInvoke o :: rest /\
    invocations rest = [] /\
    (forall e, o = Raise e -> isinstance_any e (handled_exception_types c) = false ->
       rest = [] /\ result_of (iteration c receiver self args attempt w) = Escaped e).
Proof.
  destruct (try_block_shape c receiver self args attempt w)
    as (w1 & o & rest & _ & Htrace & Hrest & Hraise).
  unfold iteration.
  destruct (try_block c receiver self args attempt w) as [[w1' t1] [r | e0]] eqn:Htry;
    cbn in Htrace; subst t1.
  - exists o, rest. split; [reflexivity|]. split; [assumption|].
    intros e -> _. specialize (Hraise e eq_refl). discriminate.
  - destruct (isinstance_any e0 (handled_exception_types c)) eqn:Hhandled.
    + pose proof (except_block_invocations c self attempt e0 w1') as Hexcept.
      destruct (except_block c self attempt e0 w1') as [[w2 t2] [[|] | e']];
        change (invocations t2 = []) in Hexcept; exists o, (rest ++ t2);
        (split; [reflexivity|]);
        (split; [rewrite invocations_app, Hrest, Hexcept; reflexivity|]);
        intros e -> Hunhandled; specialize (Hraise e eq_refl);
        injection Hraise as _ _ ->; congruence.
    + exists o, rest. split; [reflexivity|]. split; [assumption|].
      intros e -> _. specialize (Hraise e eq_refl).
      injection Hraise as _ Hr ->. split; [congruence | reflexivity].
Qed.

(** From any point of the loop on, the wrapped function is called at most
    as many times as there are attempts left. *)
Lemma while_loop_invocations c receiver self args (n : nat) :
  forall attempt last w,
    Z.to_nat (max_attempts c - attempt) = n ->
    (length (invocations (trace_of (while_loop c receiver self args attempt last w))) <= n)%nat.
Proof.
  induction n as [|n IH]; intros attempt last w Hn; rewrite while_loop_unfold;
    destruct (Z_lt_dec attempt (max_attempts c)) as [Hlt | Hge];
    try (rewrite after_loop_invocations; cbn; lia); [lia|].
  destruct (iteration_shape c receiver self args (attempt + 1) w)
    as (o & rest & Htrace & Hrest & _).
  destruct (iteration c receiver self args (attempt + 1) w) as [[w1 t1] r];
    cbn in Htrace; subst t1.
  destruct r as [result | e | e | e].
  - unfold trace_of; cbn [fst snd].
    rewrite invocations_invoke, Hrest. cbn. lia.
  - unfold trace_of; cbn [fst snd].
    rewrite invocations_invoke, Hrest. cbn. lia.
  - specialize (IH (attempt + 1) (Some e) w1 ltac:(lia)).
    destruct (while_loop c receiver self args (attempt + 1) (Some e) w1) as [[w2 t2] o2].
    unfold trace_of, after in *; cbn [fst snd] in *.
    rewrite (invocations_app (EvInvoke o :: rest) t2),
      invocations_invoke, Hrest.
    cbn [length app]. lia.
  - pose proof (after_loop_invocations c self (attempt + 1) (Some e) w1) as Hafter.
    destruct (after_loop c self (attempt + 1) (Some e) w1) as [[w2 t2] o2].
    unfold trace_of, after in *; cbn [fst snd] in *.
    rewrite (invocations_app (EvInvoke o :: rest) t2),
      invocations_invoke, Hrest, Hafter.
    cbn. lia.
Qed.

(** C1. For every configuration (with a number of attempts that is not
    negative), [max_attempts] is [max_retries + 1], and whatever the wrapped
    function, its arguments and the callbacks are, the wrapped function is
    called at most [max_attempts] times. *)
Theorem retryable_invocations_bounded kw receiver self args w :
  0 <= max_attempts (configure kw) ->
  max_attempts (configure kw) = max_retries kw + 1 /\
  Z.of_nat (length (invocations (trace_of (retryable kw receiver self args w))))
    <= max_attempts (configure kw).
Proof.
  intros Hmax. split; [reflexivity|].
  pose proof (while_loop_invocations (configure kw) receiver self args
                (Z.to_nat (max_attempts (configure kw) - 0)) 0 None w eq_refl) as Hle.
  unfold retryable, with_retry. lia.
Qed.

(** A trace that contains a call of the wrapped function has a call among
    its [invocations]. *)
Lemma invocations_middle t1 (o : outcome T) t2 :
  invocations (t1 ++ EvInvoke o :: t2) <> [].
Proof.
  rewrite invocations_app, invocations_invoke.
  destruct (invocations t1); discriminate.
Qed.

(** A call found in [rest ++ t], when [rest] has none, is found in [t]. *)
Lemma invocation_after_prefix rest :
  invocations rest = [] ->
  forall t pre (o : outcome T) post,
    rest ++ t = pre ++ EvInvoke o :: post ->
    exists pre', t = pre' ++ EvInvoke o :: post.
Proof.
  induction rest as [|ev rest IH]; intros Hrest t pre o post Heq.
  - exists pre. exact Heq.
  - destruct pre as [|ev' pre]; cbn in Heq; injection Heq as Hev Heq.
    + subst ev. discriminate Hrest.
    + apply (IH ltac:(destruct ev; [discriminate | assumption ..]) _ _ _ _ Heq).
Qed.

(** From any point of the loop on: a call of the wrapped function that ends
    in an exception which is not handled is the last event of the run, and
    that exception is what the run raises. *)
Lemma while_loop_unhandled c receiver self args e (n : nat) :
  isinstance_any e (handled_exception_types c) = false ->
  forall attempt last w pre post,
    Z.to_nat (max_attempts c - attempt) = n ->
    trace_of (while_loop c receiver self args attempt last w)
      = pre ++ EvInvoke (Raise e) :: post ->
    post = [] /\
    result_of (while_loop c receiver self args attempt last w) = Raise e.
Proof.
  intros Hunhandled.
  induction n as [|n IH]; intros attempt last w pre post Hn;
    rewrite while_loop_unfold;
    destruct (Z_lt_dec attempt (max_attempts c)) as [Hlt | Hge];
    try (intros Htrace; exfalso;
         apply (invocations_middle pre (Raise e) post);
         rewrite <- Htrace; apply after_loop_invocations); [lia|].
  destruct (iteration_shape c receiver self args (attempt + 1) w)
    as (o & rest & Htrace & Hrest & Hraise).
  destruct (iteration c receiver self args (attempt + 1) w) as [[w1 t1] r];
    unfold trace_of, result_of in Htrace, Hraise; cbn [fst snd] in Htrace, Hraise;
    subst t1.
  assert (Hhere : pre = [] -> forall t, EvInvoke o :: rest ++ t = pre ++ EvInvoke (Raise e) :: post ->
                  rest = [] /\ r = Escaped e).
  { intros -> t [= -> _]. apply Hraise; [reflexivity | assumption]. }
  assert (Hlater : forall t, EvInvoke o :: rest ++ t = pre ++ EvInvoke (Raise e) :: post ->
                   pre <> [] -> exists pre', t = pre' ++ EvInvoke (Raise e) :: post).
  { intros t Heq Hpre. destruct pre as [|ev pre]; [congruence|].
    injection Heq as _ Heq. apply (invocation_after_prefix rest Hrest _ _ _ _ Heq). }
  destruct r as [result | e' | e' | e'].
  - unfold trace_of, result_of; cbn [fst snd]. intros Heq.
    rewrite <- (app_nil_r rest) in Heq.
    destruct pre as [|ev pre].
    + destruct (Hhere eq_refl _ Heq) as [_ [=]].
    + destruct (Hlater _ Heq ltac:(discriminate)) as [pre' Hnil].
      destruct pre'; discriminate.
  - unfold trace_of, result_of; cbn [fst snd]. intros Heq.
    rewrite <- (app_nil_r rest) in Heq.
    destruct pre as [|ev pre].
    + destruct (Hhere eq_refl _ Heq) as [-> [= ->]].
      rewrite app_nil_r in Heq. injection Heq as _ <-. split; reflexivity.
    + destruct (Hlater _ Heq ltac:(discriminate)) as [pre' Hnil].
      destruct pre'; discriminate.
  - specialize (IH (attempt + 1) (Some e') w1).
    destruct (while_loop c receiver self args (attempt + 1) (Some e') w1) as [[w2 t2] o2].
    unfold trace_of, result_of, after in *; cbn [fst snd] in *. intros Heq.
    destruct pre as [|ev pre].
    + destruct (Hhere eq_refl _ Heq) as [_ [=]].
    + destruct (Hlater _ Heq ltac:(discriminate)) as [pre' ->].
      apply (IH pre' post); [lia | reflexivity].
  - pose proof (after_loop_invocations c self (attempt + 1) (Some e') w1) as Hafter.
    destruct (after_loop c self (attempt + 1) (Some e') w1) as [[w2 t2] o2].
    unfold trace_of, result_of, after in *; cbn [fst snd] in *. intros Heq.
    destruct pre as [|ev pre].
    + destruct (Hhere eq_refl _ Heq) as [_ [=]].
    + destruct (Hlater _ Heq ltac:(discriminate)) as [pre' ->].
      destruct (invocations_middle _ _ _ Hafter).
Qed.

(** C5. Whatever the configuration: when a call of the wrapped function
    raises an exception that is not an instance of a handled type, nothing
    follows that call (no hook, no predicate, no sleep-time provider, no
    wait, no further attempt) and the same exception leaves the decorated
    function. *)
Theorem retryable_unhandled_failure_propagates kw receiver self args w pre e post :
  trace_of (retryable kw receiver self args w) = pre ++ EvInvoke (Raise e) :: post ->
  isinstance_any e (handled_exception_types (configure kw)) = false ->
  post = [] /\ result_of (retryable kw receiver self args w) = Raise e.
Proof.
  intros Htrace Hunhandled.
  exact (while_loop_unhandled (configure kw) receiver self args e _ Hunhandled
           0 None w pre post eq_refl Htrace).
Qed.

(** *** Single iterations, by what the wrapped function and the callbacks do *)

Ltac unfold_iteration :=
  unfold iteration, try_block, except_block, after_loop, invoke, on_success,
    should_retry, on_retry, sleep_time, on_failure, time_sleep, bind, emit,
    lift, ret, raise.

(** The call returns and the success hook returns. *)
Lemma iteration_returned c receiver self args attempt w w1 w2 result :
  receiver self args w = (w1, Ret result) ->
  on_success_callback c self attempt w1 = (w2, Ret tt) ->
  iteration c receiver self args attempt w
    = (w2, [EvInvoke (Ret result); EvOnSuccess attempt], Returned result).
Proof.
  intros Hcall Hhook. unfold_iteration. rewrite Hcall. cbn. rewrite Hhook.
  reflexivity.
Qed.

(** The call raises an exception that is not handled. *)
Lemma iteration_escaped c receiver self args attempt w w1 e :
  receiver self args w = (w1, Raise e) ->
  isinstance_any e (handled_exception_types c) = false ->
  iteration c receiver self args attempt w = (w1, [EvInvoke (Raise e)], Escaped e).
Proof.
  intros Hcall Hunhandled. unfold_iteration. rewrite Hcall, Hunhandled.
  reflexivity.
Qed.

(** The call raises a handled exception and the predicate says no. *)
Lemma iteration_broke c receiver self args attempt w w1 w2 e :
  receiver self args w = (w1, Raise e) ->
  isinstance_any e (handled_exception_types c) = true ->
  should_retry_callback c self attempt e w1 = (w2, Ret false) ->
  iteration c receiver self args attempt w
    = (w2, [EvInvoke (Raise e); EvShouldRetry attempt e], Broke e).
Proof.
  intros Hcall Hhandled Hpred. unfold_iteration.
  rewrite Hcall, Hhandled. cbn. rewrite Hpred. reflexivity.
Qed.

(** The call raises a handled exception, the predicate says yes, the retry
    hook returns and the provider gives a duration that can be slept. *)
Lemma iteration_again c receiver self args attempt w w1 w2 w3 w4 e d :
  receiver self args w = (w1, Raise e) ->
  isinstance_any e (handled_exception_types c) = true ->
  should_retry_callback c self attempt e w1 = (w2, Ret true) ->
  on_retry_callback c self attempt e w2 = (w3, Ret tt) ->
  sleep_time_callback c self (attempt - 1) e w3 = (w4, Ret d) ->
  0 <= d ->
  iteration c receiver self args attempt w
    = (w4,
       [EvInvoke (Raise e); EvShouldRetry attempt e; EvOnRetry attempt e;
        EvSleepTime (attempt - 1) e; EvSleep d],
       Again e).
Proof.
  intros Hcall Hhandled Hpred Hhook Hsleep Hd. unfold_iteration.
  rewrite Hcall, Hhandled. cbn. rewrite Hpred. cbn. rewrite Hhook. cbn.
  rewrite Hsleep. cbn. rewrite (proj2 (Z.ltb_ge d 0) Hd). reflexivity.
Qed.

(** After the loop, when the failure hook returns. *)
Lemma after_loop_raises c self attempt w w1 e :
  on_failure_callback c self attempt (Some e) w = (w1, Ret tt) ->
  after_loop (T := T) c self attempt (Some e) w
    = (w1, [EvOnFailure attempt (Some e)], Raise e).
Proof.
  intros Hhook. unfold_iteration. cbn. rewrite Hhook. reflexivity.
Qed.

(** What [configure] makes of a default policy. *)
Lemma configure_default_policy kw :
  default_policy kw ->
  handled_exception_types (configure kw) = ["Exception"] /\
  max_attempts (configure kw) = 4 /\
  should_retry_callback (configure kw) = (fun _ attempt _ w => (w, Ret (attempt <? 4))) /\
  sleep_time_callback (configure kw)
    = (fun _ retry_attempt _ w => (w, list_getitem [0; 1; 2] retry_attempt)).
Proof.
  destruct kw. unfold default_policy. cbn.
  intros (-> & -> & -> & -> & ->). repeat split.
Qed.

Lemma isinstance_any_singleton e k : isinstance_any e [k] = isinstance e k.
Proof. unfold isinstance_any. cbn. apply orb_false_r. Qed.

(** *** The loop under the default policy *)

(** A failed attempt that is not the last one: the hook fires, the schedule
    is read at the number of retries made so far, and the loop goes on. *)
Lemma default_policy_retries kw receiver self args attempt last w w1 e :
  default_policy kw ->
  hooks_return (configure kw) ->
  0 <= attempt < 3 ->
  receiver self args w = (w1, Raise e) ->
  isinstance e "Exception" = true ->
  exists w2 d,
    list_getitem (sleep_times kw) attempt = Ret d /\
    on_retry_callback (configure kw) self (attempt + 1) e w1 = (w2, Ret tt) /\
    while_loop (configure kw) receiver self args attempt last w
    = after [EvInvoke (Raise e); EvShouldRetry (attempt + 1) e;
             EvOnRetry (attempt + 1) e; EvSleepTime attempt e; EvSleep d]
        (while_loop (configure kw) receiver self args (attempt + 1) (Some e) w2).
Proof.
  intros Hpolicy (Hretry & _ & _) Hattempt Hcall Hexception.
  destruct (configure_default_policy kw Hpolicy) as (Hh & Hm & Hpred & Hprov).
  destruct (Hretry self (attempt + 1) e w1) as [w2 Hhook].
  assert (Hd : exists d, list_getitem (sleep_times kw) attempt = Ret d /\ 0 <= d).
  { destruct Hpolicy as (_ & _ & Hs & _). unfold sleep_times. rewrite Hs.
    assert (attempt = 0 \/ attempt = 1 \/ attempt = 2) as [-> | [-> | ->]] by lia;
      eexists; (split; [reflexivity | lia]). }
  destruct Hd as (d & Hd & Hpos).
  exists w2, d. split; [exact Hd|]. split; [exact Hhook|].
  rewrite while_loop_unfold.
  destruct (Z_lt_dec attempt (max_attempts (configure kw))) as [_ | Hge]; [|lia].
  rewrite (iteration_again _ receiver self args (attempt + 1) w w1 w1 w2 w2 e d);
    try assumption.
  - replace (attempt + 1 - 1) with attempt by lia. reflexivity.
  - rewrite Hh, isinstance_any_singleton. exact Hexception.
  - rewrite Hpred. do 2 f_equal. rewrite Z.ltb_lt. lia.
  - rewrite Hprov. replace (attempt + 1 - 1) with attempt by lia.
    destruct Hpolicy as (_ & _ & Hs & _). unfold sleep_times in Hd.
    rewrite Hs in Hd. rewrite Hd. reflexivity.
Qed.

(** The fourth attempt fails: the predicate says no, the failure hook fires
    and the exception of that attempt is raised. *)
Lemma default_policy_gives_up kw receiver self args last w w1 e :
  default_policy kw ->
  hooks_return (configure kw) ->
  receiver self args w = (w1, Raise e) ->
  isinstance e "Exception" = true ->
  exists w2,
    on_failure_callback (configure kw) self 4 (Some e) w1 = (w2, Ret tt) /\
    while_loop (configure kw) receiver self args 3 last w
    = (w2, [EvInvoke (Raise e); EvShouldRetry 4 e; EvOnFailure 4 (Some e)], Raise e).
Proof.
  intros Hpolicy (_ & _ & Hfailure) Hcall Hexception.
  destruct (configure_default_policy kw Hpolicy) as (Hh & Hm & Hpred & Hprov).
  destruct (Hfailure self 4 (Some e) w1) as [w2 Hhook].
  exists w2. split; [exact Hhook|].
  rewrite while_loop_unfold.
  destruct (Z_lt_dec 3 (max_attempts (configure kw))) as [_ | Hge]; [|lia].
  rewrite (iteration_broke _ receiver self args (3 + 1) w w1 w1 e); try assumption.
  - rewrite (after_loop_raises _ self (3 + 1) w1 w2 e Hhook). reflexivity.
  - rewrite Hh, isinstance_any_singleton. exact Hexception.
  - rewrite Hpred. reflexivity.
Qed.

(** C2. Default policy, a wrapped function that raises an instance of
    [Exception] whenever it is called: it is called exactly 4 times, the
    retry hook is called exactly 3 times (after attempts 1, 2 and 3), the
    failure hook exactly once, with 4 attempts and the exception of the last
    call, and that very exception leaves the decorated function. *)
Theorem retryable_default_always_failing kw receiver self args w :
  default_policy kw ->
  hooks_return (configure kw) ->
  (forall w0, exists w1 e,
      receiver self args w0 = (w1, Raise e) /\ isinstance e "Exception" = true) ->
  exists w' t e1 e2 e3 e4,
    retryable kw receiver self args w = (w', t, Raise e4) /\
    invocations t = [Raise e1; Raise e2; Raise e3; Raise e4] /\
    on_retry_calls t = [(1, e1); (2, e2); (3, e3)] /\
    on_failure_calls t = [(4, Some e4)].
Proof.
  intros Hpolicy Hhooks Hfails.
  unfold retryable, with_retry.
  destruct (Hfails w) as (w1 & e1 & Hcall1 & Hexn1).
  destruct (default_policy_retries kw receiver self args 0 None w w1 e1
              Hpolicy Hhooks ltac:(lia) Hcall1 Hexn1) as (w1' & d1 & _ & _ & ->).
  destruct (Hfails w1') as (w2 & e2 & Hcall2 & Hexn2).
  destruct (default_policy_retries kw receiver self args (0 + 1) (Some e1) w1' w2 e2
              Hpolicy Hhooks ltac:(lia) Hcall2 Hexn2) as (w2' & d2 & _ & _ & ->).
  destruct (Hfails w2') as (w3 & e3 & Hcall3 & Hexn3).
  destruct (default_policy_retries kw receiver self args (0 + 1 + 1) (Some e2) w2' w3 e3
              Hpolicy Hhooks ltac:(lia) Hcall3 Hexn3) as (w3' & d3 & _ & _ & ->).
  destruct (Hfails w3') as (w4 & e4 & Hcall4 & Hexn4).
  destruct (default_policy_gives_up kw receiver self args (Some e3) w3' w4 e4
              Hpolicy Hhooks Hcall4 Hexn4) as (w4' & _ & Hlast).
  change (0 + 1 + 1 + 1) with 3. rewrite Hlast.
  eexists w4', _, e1, e2, e3, e4. split; [reflexivity|].
  repeat split.
Qed.

(** An attempt that succeeds ends the loop. *)
Lemma while_loop_returns c receiver self args attempt last w w1 w2 result :
  attempt < max_attempts c ->
  receiver self args w = (w1, Ret result) ->
  on_success_callback c self (attempt + 1) w1 = (w2, Ret tt) ->
  while_loop c receiver self args attempt last w
    = (w2, [EvInvoke (Ret result); EvOnSuccess (attempt + 1)], Ret result).
Proof.
  intros Hlt Hcall Hhook. rewrite while_loop_unfold.
  destruct (Z_lt_dec attempt (max_attempts c)) as [_ | Hge]; [|lia].
  rewrite (iteration_returned c receiver self args (attempt + 1) w w1 w2 result);
    [reflexivity | assumption ..].
Qed.

(** C3. Default policy, the first call of the wrapped function raises an
    instance of [Exception], the second call returns: there are exactly these
    2 calls, the retry hook is called exactly once, with attempt 1, the
    success hook exactly once, with 2 attempts, the sleep-time provider
    exactly once, with index 0 (the attempt number minus one), and there is
    exactly one wait, of the duration the schedule has at index 0. The
    result of the second call is returned. *)
Theorem retryable_default_second_attempt_succeeds
    kw receiver self args w w1 e result :
  default_policy kw ->
  hooks_return (configure kw) ->
  receiver self args w = (w1, Raise e) ->
  isinstance e "Exception" = true ->
  (forall w2, on_retry_callback (configure kw) self 1 e w1 = (w2, Ret tt) ->
     exists w3, receiver self args w2 = (w3, Ret result)) ->
  exists w' t d,
    retryable kw receiver self args w = (w', t, Ret result) /\
    invocations t = [Raise e; Ret result] /\
    on_retry_calls t = [(1, e)] /\
    on_success_calls t = [2] /\
    sleep_time_calls t = [(0, e)] /\
    list_getitem (sleep_times kw) 0 = Ret d /\
    waits t = [d].
Proof.
  intros Hpolicy Hhooks Hcall1 Hexception Hsecond.
  unfold retryable, with_retry.
  destruct (default_policy_retries kw receiver self args 0 None w w1 e
              Hpolicy Hhooks ltac:(lia) Hcall1 Hexception)
    as (w2 & d & Hd & Hretry & ->).
  destruct (Hsecond w2 Hretry) as [w3 Hcall2].
  destruct Hhooks as (_ & Hsuccess & _).
  destruct (Hsuccess self (0 + 1 + 1) w3) as [w4 Hhook].
  destruct (configure_default_policy kw Hpolicy) as (_ & Hm & _).
  assert (Hlt : 0 + 1 < max_attempts (configure kw)) by lia.
  rewrite (while_loop_returns _ receiver self args (0 + 1) (Some e) w2 w3 w4 result
             Hlt Hcall2 Hhook).
  exists w4. eexists. exists d. split; [reflexivity|].
  repeat split. exact Hd.
Qed.

(** With [max_retries = 0] and the default retry predicate, when the call of
    the wrapped function raises a handled exception: the function is called
    exactly once, the retry hook is not called and no wait is made, the
    failure hook is called exactly once, with 1 attempt and that exception,
    and that exception leaves the decorated function. *)
Theorem retryable_zero_retries kw receiver self args w w1 w2 e :
  kw_max_retries kw = Some 0 ->
  kw_should_retry_callback kw = None ->
  receiver self args w = (w1, Raise e) ->
  isinstance_any e (handled_exception_types (configure kw)) = true ->
  on_failure_callback (configure kw) self 1 (Some e) w1 = (w2, Ret tt) ->
  exists t,
    retryable kw receiver self args w = (w2, t, Raise e) /\
    invocations t = [Raise e] /\
    on_retry_calls t = [] /\
    waits t = [] /\
    on_failure_calls t = [(1, Some e)].
Proof.
  intros Hzero Hpred Hcall Hhandled Hhook.
  assert (Hm : max_attempts (configure kw) = 1).
  { unfold configure, max_retries. cbn. rewrite Hzero. reflexivity. }
  assert (Hno : should_retry_callback (configure kw) self (0 + 1) e w1 = (w1, Ret false)).
  { unfold configure, max_retries. cbn. rewrite Hpred, Hzero. reflexivity. }
  unfold retryable, with_retry. rewrite while_loop_unfold.
  destruct (Z_lt_dec 0 (max_attempts (configure kw))) as [_ | Hge]; [|lia].
  rewrite (iteration_broke _ receiver self args (0 + 1) w w1 w1 e Hcall Hhandled Hno).
  rewrite (after_loop_raises _ self (0 + 1) w1 w2 e Hhook).
  eexists. split; [reflexivity|]. repeat split.
Qed.

(** The [except] block asks the predicate first of all. *)
Lemma except_block_head c self attempt e w :
  exists rest,
    trace_of (except_block (T := T) c self attempt e w) = EvShouldRetry attempt e :: rest.
Proof.
  unfold except_block.
  match goal with
  | |- context [bind ?m ?k w] => destruct (trace_of_bind m k w) as [rest Hrest]
  end.
  rewrite Hrest. unfold should_retry, bind, emit, lift, trace_of.
  destruct (should_retry_callback c self attempt e w) as [w2 [go|e2]]; cbn;
    eexists; reflexivity.
Qed.

(** An iteration starts with the call of the wrapped function. *)
Lemma iteration_head c receiver self args attempt w :
  exists rest,
    trace_of (iteration c receiver self args attempt w)
    = EvInvoke (receiver self args w).2 :: rest.
Proof.
  destruct (try_block_shape c receiver self args attempt w)
    as (w1 & o & rest & Hcall & Htrace & _ & _).
  rewrite Hcall. cbn [snd]. unfold iteration.
  destruct (try_block c receiver self args attempt w) as [[w1' t1] [r | e0]];
    unfold trace_of in Htrace; cbn in Htrace; subst t1.
  - eexists. reflexivity.
  - destruct (isinstance_any e0 (handled_exception_types c)); [|eexists; reflexivity].
    destruct (except_block c self attempt e0 w1') as [[w2 t2] [[|] | e']];
      eexists; reflexivity.
Qed.

(** A failure that is handled enters the [except] block: the predicate is
    asked about it. *)
Lemma iteration_handled_head c receiver self args attempt w w1 e :
  receiver self args w = (w1, Raise e) ->
  isinstance_any e (handled_exception_types c) = true ->
  exists rest,
    trace_of (iteration c receiver self args attempt w)
    = EvInvoke (Raise e) :: EvShouldRetry attempt e :: rest.
Proof.
  intros Hcall Hhandled.
  destruct (try_block_shape c receiver self args attempt w)
    as (w1' & o & rest & Hrec & _ & _ & Hraise).
  rewrite Hcall in Hrec. injection Hrec as <- <-.
  specialize (Hraise e eq_refl). unfold iteration. rewrite Hraise, Hhandled.
  destruct (except_block_head c self attempt e w1) as [rest2 Hhead].
  destruct (except_block c self attempt e w1) as [[w2 t2] [[|] | e']];
    unfold trace_of in Hhead; cbn in Hhead; subst t2; eexists; reflexivity.
Qed.

(** While attempts are left, the loop runs an iteration first. *)
Lemma while_loop_trace_prefix c receiver self args attempt last w :
  attempt < max_attempts c ->
  exists rest,
    trace_of (while_loop c receiver self args attempt last w)
    = trace_of (iteration c receiver self args (attempt + 1) w) ++ rest.
Proof.
  intros Hlt. rewrite while_loop_unfold.
  destruct (Z_lt_dec attempt (max_attempts c)) as [_ | Hge]; [|lia].
  destruct (iteration c receiver self args (attempt + 1) w) as [[w1 t1] [r | e | e | e]].
  - exists []. rewrite app_nil_r. reflexivity.
  - exists []. rewrite app_nil_r. reflexivity.
  - destruct (while_loop c receiver self args (attempt + 1) (Some e) w1) as [[w2 t2] o].
    exists t2. reflexivity.
  - destruct (after_loop c self (attempt + 1) (Some e) w1) as [[w2 t2] o].
    exists t2. reflexivity.
Qed.

(** C10. An empty collection passed as [handled_exception_types] gives the
    decorator of the default: the decorated functions are the same, and the
    handled types are [(Exception,)]. So, for a first call of the wrapped
    function that raises [e], with at least one attempt allowed:
    - if [e] is an instance of [Exception], it is handled: the [except]
      clause is entered and the predicate is asked about attempt 1; and it
      is retried: when the predicate says yes, the retry hook returns, the
      provider gives a duration that is not negative and a second attempt is
      allowed, the wrapped function is called again, after the wait;
    - if [e] is not an instance of [Exception], it leaves the decorated
      function at once, and no callback is called. *)
Theorem retryable_empty_handled_types_is_default kw receiver self args w w1 e :
  0 < max_attempts (configure kw) ->
  receiver self args w = (w1, Raise e) ->
  retryable (with_handled_exception_types (Some []) kw) receiver
    = retryable (with_handled_exception_types None kw) receiver /\
  handled_exception_types (configure (with_handled_exception_types (Some []) kw))
    = ["Exception"] /\
  (forall e',
      isinstance_any e'
        (handled_exception_types (configure (with_handled_exception_types (Some []) kw)))
      = isinstance e' "Exception") /\
  (isinstance e "Exception" = true ->
     (exists rest,
         trace_of (retryable (with_handled_exception_types (Some []) kw)
                     receiver self args w)
         = EvInvoke (Raise e) :: EvShouldRetry 1 e :: rest) /\
     (forall w2 w3 w4 d,
         1 < max_attempts (configure kw) ->
         should_retry_callback (configure kw) self 1 e w1 = (w2, Ret true) ->
         on_retry_callback (configure kw) self 1 e w2 = (w3, Ret tt) ->
         sleep_time_callback (configure kw) self 0 e w3 = (w4, Ret d) ->
         0 <= d ->
         exists rest,
           trace_of (retryable (with_handled_exception_types (Some []) kw)
                       receiver self args w)
           = [EvInvoke (Raise e); EvShouldRetry 1 e; EvOnRetry 1 e;
              EvSleepTime 0 e; EvSleep d]
             ++ EvInvoke (receiver self args w4).2 :: rest)) /\
  (isinstance e "Exception" = false ->
     retryable (with_handled_exception_types (Some []) kw) receiver self args w
     = (w1, [EvInvoke (Raise e)], Raise e)).
Proof.
  intros Hmax Hcall.
  split; [reflexivity|]. split; [reflexivity|].
  split; [intros e'; apply isinstance_any_singleton|].
  unfold retryable, with_retry.
  remember (configure (with_handled_exception_types (Some []) kw)) as c eqn:Hc.
  assert (Hattempts : max_attempts c = max_attempts (configure kw))
    by (subst c; reflexivity).
  assert (Hhandled : isinstance_any e (handled_exception_types c) = isinstance e "Exception")
    by (subst c; apply isinstance_any_singleton).
  assert (Hpredicate : should_retry_callback c = should_retry_callback (configure kw))
    by (subst c; reflexivity).
  assert (Hhook : on_retry_callback c = on_retry_callback (configure kw))
    by (subst c; reflexivity).
  assert (Hprovider : sleep_time_callback c = sleep_time_callback (configure kw))
    by (subst c; reflexivity).
  clear Hc. split.
  - intros Hinstance. rewrite <- Hhandled in Hinstance. split.
    + destruct (while_loop_trace_prefix c receiver self args 0 None w ltac:(lia))
        as [rest ->].
      destruct (iteration_handled_head c receiver self args (0 + 1) w w1 e
                  Hcall Hinstance) as [rest' ->].
      change (0 + 1) with 1. eexists. reflexivity.
    + intros w2 w3 w4 d Hsecond Hyes Hretry Hwait Hd.
      rewrite <- Hpredicate in Hyes. rewrite <- Hhook in Hretry.
      rewrite <- Hprovider in Hwait.
      rewrite while_loop_unfold.
      destruct (Z_lt_dec 0 (max_attempts c)) as [_ | Hge]; [|lia].
      change (0 + 1) with 1.
      rewrite (iteration_again c receiver self args 1 w w1 w2 w3 w4 e d
                 Hcall Hinstance Hyes Hretry Hwait Hd).
      change (1 - 1) with 0.
      destruct (while_loop_trace_prefix c receiver self args 1 (Some e) w4 ltac:(lia))
        as [rest Hloop].
      destruct (iteration_head c receiver self args (1 + 1) w4) as [rest' Hiteration].
      rewrite Hiteration in Hloop.
      destruct (while_loop c receiver self args 1 (Some e) w4) as [[w5 t5] o5].
      unfold trace_of in Hloop. cbn in Hloop. subst t5.
      eexists. reflexivity.
  - intros Hinstance. rewrite <- Hhandled in Hinstance.
    rewrite while_loop_unfold.
    destruct (Z_lt_dec 0 (max_attempts c)) as [_ | Hge]; [|lia].
    rewrite (iteration_escaped c receiver self args (0 + 1) w w1 e Hcall Hinstance).
    reflexivity.
Qed.

End RetryableProperties.

(** ** class_property *)
Section ClassPropertyProperties.
Import ClassProperty.
Context {V : Type}.
Implicit Types (σ : gmap string (object V)) (d : WrappedProperty V).

(** C6, as far as it holds: on an instance whose class exposes [name]
    through [class_property(receiver)], every assignment to the attribute and
    every deletion of it raises [AttributeError] and changes nothing. The
    message quotes the [__name__] of the wrapped function, which is the name
    of the attribute whenever the property was bound under the name of its
    function, as the decorator syntax does. *)
Theorem class_property_read_only_on_instances σ x name receiver val :
  exposed_on_instance σ x name (class_property receiver) ->
  setattr σ x name val
    = (σ, Raise (AttributeError ("Cannot set " +:+ quoted (fn_name receiver)))) /\
  delattr σ x name
    = (σ, Raise (AttributeError ("Cannot delete " +:+ quoted (fn_name receiver)))) /\
  (name = fn_name receiver ->
   setattr σ x name val = (σ, Raise (AttributeError ("Cannot set " +:+ quoted name))) /\
   delattr σ x name = (σ, Raise (AttributeError ("Cannot delete " +:+ quoted name)))).
Proof.
  intros (o & Hx & Hlookup). unfold setattr, delattr.
  rewrite Hx, Hlookup. split; [reflexivity|]. split; [reflexivity|].
  intros ->. split; reflexivity.
Qed.

End ClassPropertyProperties.

(** ** lazy_property *)
Section LazyPropertyProperties.
Import LazyProperty.
Context {V : Type}.
Implicit Types (receiver : pyfunction (gmap string V -> gmap string V * outcome V)).
Implicit Types (self : gmap string V).

(** Once the slot is filled, reading the property returns what is in it and
    does not run the wrapped function. *)
Lemma lazy_property_cached receiver self v :
  self !! key receiver = Some v ->
  with_memoization receiver self = (self, [], Ret v).
Proof.
  intros Hslot. unfold with_memoization, hasattr, getattr, bind, ret. cbn.
  rewrite Hslot. rewrite bool_decide_eq_true_2 by (eexists; reflexivity).
  cbn. rewrite Hslot. reflexivity.
Qed.

(** C8. On an instance whose slot is still empty, and for a computation that
    returns: the first read of the property runs the wrapped function once
    and stores its result; the second read returns that stored value and
    does not run the function again, whatever the function would return
    now. Two reads, one computation. *)
Theorem lazy_property_computes_once receiver self self1 v :
  self !! key receiver = None ->
  fn_call receiver self = (self1, Ret v) ->
  exists self2 t1 t2,
    with_memoization receiver self = (self2, t1, Ret v) /\
    with_memoization receiver self2 = (self2, t2, Ret v) /\
    self2 !! key receiver = Some v /\
    computations (t1 ++ t2) = 1%nat /\
    computations t2 = 0%nat.
Proof.
  intros Hslot Hcall.
  exists (<[key receiver := v]> self1), [EvCompute], [].
  split.
  - unfold with_memoization, hasattr, compute, setattr, getattr, bind, emit,
      lift, ret. cbn.
    rewrite Hslot. rewrite bool_decide_eq_false_2 by (intros [? [=]]).
    cbn. rewrite Hcall. cbn. rewrite lookup_insert_eq. reflexivity.
  - split; [|split; [apply lookup_insert_eq | split; reflexivity]].
    apply lazy_property_cached, lookup_insert_eq.
Qed.

End LazyPropertyProperties.

(** ** memoized *)
Section MemoizedProperties.
Import Memoized.
Context {Arg V D F : Type}.
Context (str : Arg -> string) (vars : Arg -> option D) (str_dict : D -> string).
Implicit Types (self : instance V F) (args : list Arg).
Implicit Types
  (receiver : pyfunction (instance V F -> list Arg -> instance V F * outcome V)).

Local Abbreviation key_of receiver args := (generate_key str vars str_dict receiver args).
Local Abbreviation call receiver self args :=
  (with_memoization str vars str_dict receiver args self).

(** After lines 108-109 the attribute is bound, to a dictionary that holds
    what the instance had cached. *)
Lemma prepare_cache self :
  exists d, _cache (prepare self) = Some d /\
            forall k, dict_at (prepare self) d !! k = cached self k.
Proof.
  unfold prepare, cached. destruct (_cache self) as [d|] eqn:Hcache.
  - exists d. rewrite Hcache. split; reflexivity.
  - eexists. split; [reflexivity|]. intros k. unfold dict_at. cbn.
    rewrite lookup_insert_eq. cbn. rewrite lookup_empty. reflexivity.
Qed.

Lemma prepare_bound self d : _cache self = Some d -> prepare self = self.
Proof. unfold prepare. intros ->. reflexivity. Qed.

(** A call whose key is in the cache returns the entry; the wrapped function
    is not run and nothing changes. *)
Lemma memoized_hit receiver self args v :
  cached self (key_of receiver args) = Some v ->
  call receiver self args = (self, [], Ret v).
Proof.
  remember (key_of receiver args) as key eqn:Hkey.
  unfold cached. intros Hhit.
  destruct (_cache self) as [d|] eqn:Hcache; [|discriminate]. cbn in Hhit.
  unfold with_memoization, ensure_cache, get_cache, cache_has, cache_get, bind, ret.
  rewrite <- Hkey, (prepare_bound self d Hcache), Hcache. cbn -[dict_at].
  rewrite bool_decide_eq_true_2 by (rewrite Hhit; eexists; reflexivity).
  cbn -[dict_at]. rewrite Hhit. reflexivity.
Qed.

(** A call whose key is not in the cache: the wrapped function runs on the
    prepared instance; if it raises, its exception leaves the call; if it
    returns, the result goes into the dictionary that [self._cache] was bound
    to before the wrapped function ran, and the call returns it. *)
Lemma memoized_miss receiver self args :
  cached self (key_of receiver args) = None ->
  exists d, _cache (prepare self) = Some d /\
    (forall self' e,
        fn_call receiver (prepare self) args = (self', Raise e) ->
        call receiver self args = (self', [EvCompute args], Raise e)) /\
    (forall self' v,
        fn_call receiver (prepare self) args = (self', Ret v) ->
        call receiver self args
        = ({| _cache := _cache self';
              dicts := <[d := <[key_of receiver args := v]> (dict_at self' d)]> (dicts self');
              fields := fields self' |}, [EvCompute args], Ret v)).
Proof.
  remember (key_of receiver args) as key eqn:Hkey.
  intros Hmiss. destruct (prepare_cache self) as (d & Hd & Hsame).
  exists d. split; [exact Hd|].
  assert (Hnone : dict_at (prepare self) d !! key = None)
    by (rewrite Hsame; exact Hmiss).
  split.
  - intros self' e Hrun.
    unfold with_memoization, ensure_cache, get_cache, cache_has, compute, bind,
      emit, lift, ret.
    rewrite <- Hkey, Hd. cbn -[dict_at prepare]. rewrite Hnone.
    rewrite bool_decide_eq_false_2 by (intros [? [=]]). cbn -[dict_at prepare].
    rewrite Hrun. reflexivity.
  - intros self' v Hrun.
    unfold with_memoization, ensure_cache, get_cache, cache_has, compute,
      cache_store, cache_get, bind, emit, lift, ret.
    rewrite <- Hkey, Hd. cbn -[dict_at prepare]. rewrite Hnone.
    rewrite bool_decide_eq_false_2 by (intros [? [=]]). cbn -[dict_at prepare].
    rewrite Hrun. cbn -[dict_at prepare]. unfold dict_at at 1. cbn -[dict_at prepare].
    rewrite lookup_insert_eq. cbn -[dict_at prepare]. rewrite lookup_insert_eq.
    reflexivity.
Qed.

(** What a call that returns leaves behind, when the wrapped function keeps
    the attribute bound to its dictionary: the entry under the key of the
    call holds the value returned, the other entries are as before, and the
    wrapped function ran once if the key was not in the cache and not at all
    if it was. *)
Lemma memoized_call receiver self args self1 t v :
  keeps_cache_dict receiver ->
  call receiver self args = (self1, t, Ret v) ->
  cached self1 (key_of receiver args) = Some v /\
  (forall k u, cached self k = Some u -> k <> key_of receiver args ->
               cached self1 k = Some u) /\
  (cached self (key_of receiver args) = None -> t = [EvCompute args]) /\
  (forall u, cached self (key_of receiver args) = Some u ->
             u = v /\ t = [] /\ self1 = self).
Proof.
  intros Hkeeps Hcall.
  destruct (cached self (key_of receiver args)) as [u|] eqn:Hkey.
  - rewrite (memoized_hit receiver self args u Hkey) in Hcall.
    injection Hcall as <- <- <-.
    split; [assumption|]. split; [intros; assumption|].
    split; [discriminate|]. intros u' [= <-]. repeat split.
  - destruct (memoized_miss receiver self args Hkey) as (d & Hd & Hraise & Hret).
    destruct (prepare_cache self) as (d0 & Hd0 & Hsame).
    assert (d0 = d) as -> by congruence.
    destruct (fn_call receiver (prepare self) args) as [self' [v'|e]] eqn:Hrun.
    + rewrite (Hret self' v' eq_refl) in Hcall. injection Hcall as <- <- <-.
      destruct (Hkeeps (prepare self) args self' (Ret v') d Hrun Hd) as [Hd' Hsub].
      unfold cached. cbn. rewrite Hd'. cbn. unfold dict_at at 1. cbn.
      rewrite lookup_insert_eq. cbn.
      split; [apply lookup_insert_eq|]. split; [|split; [reflexivity | discriminate]].
      intros k u Hk Hne. unfold dict_at at 1. cbn. rewrite lookup_insert_eq. cbn.
      rewrite lookup_insert_ne by congruence.
      apply (lookup_weaken (dict_at (prepare self) d) (dict_at self' d) k u);
        [|assumption].
      rewrite Hsame. exact Hk.
    + rewrite (Hraise self' e eq_refl) in Hcall. discriminate.
Qed.

(** C9. The key of a call is the name of the wrapped function followed by
    one piece per argument, in order: the string of the argument's
    [__dict__] when it has one, the string of the argument otherwise. For a
    wrapped function that leaves [self._cache] bound to its dictionary and
    takes nothing out of it, and a call that returns [v1]:
    - a second call whose arguments give the same key returns [v1], does not
      run the wrapped function and changes nothing: the two calls share one
      entry;
    - a second call whose arguments give another key leaves two entries, one
      per key, each holding the result of its own call, each computed by one
      run of the wrapped function when its key was not cached before, and
      each served from the cache from then on. *)
Theorem memoized_entries_by_key receiver self args1 args2 self1 t1 v1 :
  keeps_cache_dict receiver ->
  call receiver self args1 = (self1, t1, Ret v1) ->
  (forall args,
      key_of receiver args
      = fn_name receiver +:+
        String.concat ""
          (map (fun arg => match vars arg with
                           | None => str arg
                           | Some d => str_dict d
                           end) args)) /\
  (key_of receiver args2 = key_of receiver args1 ->
     call receiver self1 args2 = (self1, [], Ret v1)) /\
  (key_of receiver args2 <> key_of receiver args1 ->
     forall self2 t2 v2,
       call receiver self1 args2 = (self2, t2, Ret v2) ->
       cached self2 (key_of receiver args1) = Some v1 /\
       cached self2 (key_of receiver args2) = Some v2 /\
       (cached self (key_of receiver args1) = None -> t1 = [EvCompute args1]) /\
       (cached self1 (key_of receiver args2) = None -> t2 = [EvCompute args2]) /\
       call receiver self2 args1 = (self2, [], Ret v1) /\
       call receiver self2 args2 = (self2, [], Ret v2)).
Proof.
  intros Hkeeps Hfirst.
  destruct (memoized_call receiver self args1 self1 t1 v1 Hkeeps Hfirst)
    as (Hentry1 & _ & Hmiss1 & _).
  split; [intros args; reflexivity|].
  split.
  - intros Hsame. apply memoized_hit. rewrite Hsame. exact Hentry1.
  - intros Hother self2 t2 v2 Hsecond.
    destruct (memoized_call receiver self1 args2 self2 t2 v2 Hkeeps Hsecond)
      as (Hentry2 & Hkept & Hmiss2 & _).
    assert (Hentry1' : cached self2 (key_of receiver args1) = Some v1)
      by (apply Hkept; [assumption | congruence]).
    repeat split; try assumption; apply memoized_hit; assumption.
Qed.

End MemoizedProperties.

(** ** timed *)
Section TimedProperties.
Import Timed.
Context {Obj Args T W Num : Type}.
Context (time_time : W -> W * Num) (elapsed_ms : Num -> Num -> Num) (one : Num).
Implicit Types (receiver : pyfunction (Obj -> Args -> W -> W * outcome T)).

(** The test of line 278 passes exactly when the client has the method and
    is true; the decorator is then [with_timing] over that method. *)
Lemma timed_built stats_client prefix sample_rate
    (decorator : pyfunction (Obj -> Args -> W -> W * outcome T) ->
                 Obj -> Args -> M W (event T Num) T) :
  timed time_time elapsed_ms one stats_client prefix sample_rate = Ret decorator ->
  exists record,
    usable stats_client = Some record /\
    stats_client ≫= record_timing = Some record /\
    decorator
    = with_timing time_time elapsed_ms record
        (match prefix with Some p => p +:+ "." | None => "" end)
        (match sample_rate with Some r => r | None => one end).
Proof.
  unfold timed. destruct (usable stats_client) as [record|] eqn:Husable; [|discriminate].
  intros [= <-]. exists record. split; [reflexivity|]. split; [|reflexivity].
  unfold usable in Husable. destruct stats_client as [c|]; [|discriminate].
  destruct (client_truth c); [exact Husable | discriminate].
Qed.

(** C7. A decorator that [timed] has built reports to the [record_timing]
    method of its client, and for any call of the function it wraps:
    - if the wrapped call raises, [record_timing] is not called: the world
      is as the wrapped call left it, and the exception leaves
      [with_timing] as it is;
    - if the wrapped call returns, [record_timing] is called once, after a
      second reading of the clock, with the prefixed name, the elapsed time
      and the configured sample rate; the world is as that call left it, and
      the result of the wrapped call is returned when that call returns. *)
Theorem timed_records_after_normal_return
    stats_client prefix sample_rate decorator receiver self args w :
  timed time_time elapsed_ms one stats_client prefix sample_rate = Ret decorator ->
  exists record,
    stats_client ≫= record_timing = Some record /\
    (forall w1 e,
        fn_call receiver self args (time_time w).1 = (w1, Raise e) ->
        decorator receiver self args w = (w1, [EvInvoke (Raise e)], Raise e) /\
        samples (trace_of (decorator receiver self args w)) = []) /\
    (forall w1 result w3 o,
        fn_call receiver self args (time_time w).1 = (w1, Ret result) ->
        record
          (match prefix with Some p => p +:+ "." | None => "" end +:+ fn_name receiver)
          (elapsed_ms (time_time w1).2 (time_time w).2)
          (match sample_rate with Some r => r | None => one end)
          (time_time w1).1 = (w3, o) ->
        decorator receiver self args w
        = (w3,
           [EvInvoke (Ret result);
            EvRecordTiming
              (match prefix with Some p => p +:+ "." | None => "" end
               +:+ fn_name receiver)
              (elapsed_ms (time_time w1).2 (time_time w).2)
              (match sample_rate with Some r => r | None => one end)],
           match o with Ret _ => Ret result | Raise e => Raise e end) /\
        samples (trace_of (decorator receiver self args w))
        = [(match prefix with Some p => p +:+ "." | None => "" end +:+ fn_name receiver,
            elapsed_ms (time_time w1).2 (time_time w).2,
            match sample_rate with Some r => r | None => one end)]).
Proof.
  intros Hbuilt.
  destruct (timed_built _ _ _ _ Hbuilt) as (record & _ & Hrecord & ->).
  exists record. split; [exact Hrecord|].
  unfold with_timing, bind, emit, lift, ret.
  destruct (time_time w) as [w0 start_time]. cbn [fst snd].
  split.
  - intros w1 e Hcall. rewrite Hcall. split; reflexivity.
  - intros w1 result w3 o Hcall. rewrite Hcall.
    destruct (time_time w1) as [w2 end_time]. cbn [fst snd].
    intros Hsink. rewrite Hsink. destruct o as [[]|e]; split; reflexivity.
Qed.

End TimedProperties.

(** * The properties at work on the sample programs *)
Section Instances.
Import Samples.

(** ** class_property *)

Lemma class_property_read_only_on_instances_witness :
  ClassProperty.exposed_on_instance class_store "c" "x"
    (ClassProperty.class_property x_function) /\
  ClassProperty.setattr class_store "c" "x" 5
    = (class_store, Raise (AttributeError ("Cannot set " +:+ quoted "x"))) /\
  ClassProperty.delattr class_store "c" "x"
    = (class_store, Raise (AttributeError ("Cannot delete " +:+ quoted "x"))).
Proof.
  assert (Hexposed : ClassProperty.exposed_on_instance class_store "c" "x"
                       (ClassProperty.class_property x_function)).
  { eexists. split; reflexivity. }
  split; [exact Hexposed|].
  destruct (class_property_read_only_on_instances class_store "c" "x" x_function 5
              Hexposed) as (_ & _ & Hnamed).
  exact (Hnamed eq_refl).
Defined.

(** On the class [C] the attribute is not protected. [C.x = 5] and
    [del C.x] look [x] up on the metaclass, where there is no descriptor, so
    neither raises: here the first rebinds the class attribute to the plain
    value 5, the second removes it. C6 does not hold for assignments and
    deletions made through the type. *)
Lemma class_property_assignable_on_type :
  ClassProperty.exposed_on_type class_store "C" "x"
    (ClassProperty.class_property x_function) /\
  ~ (exists e, (ClassProperty.setattr class_store "C" "x" 5).2 = Raise e) /\
  ~ (exists e, (ClassProperty.delattr class_store "C" "x").2 = Raise e) /\
  ClassProperty.type_lookup (ClassProperty.setattr class_store "C" "x" 5).1 "C" "x"
    = Some (ClassProperty.Plain 5) /\
  ClassProperty.type_lookup (ClassProperty.delattr class_store "C" "x").1 "C" "x"
    = None.
Proof.
  assert (Hset : (ClassProperty.setattr class_store "C" "x" 5).2 = Ret tt)
    by (vm_compute; reflexivity).
  assert (Hdel : (ClassProperty.delattr class_store "C" "x").2 = Ret tt)
    by (vm_compute; reflexivity).
  split; [vm_compute; reflexivity|].
  split; [intros [e He]; rewrite Hset in He; discriminate|].
  split; [intros [e He]; rewrite Hdel in He; discriminate|].
  split; vm_compute; reflexivity.
Qed.

(** ** lazy_property *)

Lemma lazy_property_computes_once_witness :
  exists self2 t1 t2,
    LazyProperty.with_memoization ticket ∅ = (self2, t1, Ret 1) /\
    LazyProperty.with_memoization ticket self2 = (self2, t2, Ret 1) /\
    self2 !! LazyProperty.key ticket = Some 1 /\
    LazyProperty.computations (t1 ++ t2) = 1%nat /\
    LazyProperty.computations t2 = 0%nat.
Proof.
  apply (lazy_property_computes_once ticket ∅ (<["issued" := 1]> ∅) 1);
    reflexivity.
Defined.

(** Running the computation again would give 2, not 1. *)
Example ticket_changes :
  (fn_call ticket (<["_ticket" := 1]> (<["issued" := 1]> ∅))).2 = Ret 2.
Proof. vm_compute. reflexivity. Qed.

(** ** memoized *)

Lemma square_keeps_cache : Memoized.keeps_cache_dict square.
Proof.
  intros self args self' o d Hcall Hcache.
  destruct args as [|n [|m args]]; cbn in Hcall; injection Hcall as <- _;
    (split; [exact Hcache | reflexivity]).
Defined.

Lemma norm_keeps_cache : Memoized.keeps_cache_dict norm.
Proof.
  intros self args self' o d Hcall Hcache.
  destruct args as [|n [|m args]]; cbn in Hcall; injection Hcall as <- _;
    (split; [exact Hcache | reflexivity]).
Defined.

Lemma memoized_entries_by_key_witness :
  (memoized_square [3] fresh_instance
     = (instance_with_9, [Memoized.EvCompute [3]], Ret 9) /\
   memoized_square [3] instance_with_9 = (instance_with_9, [], Ret 9) /\
   memoized_square [4] instance_with_9
     = (instance_with_9_and_16, [Memoized.EvCompute [4]], Ret 16) /\
   Memoized.cached instance_with_9_and_16 "square3" = Some 9 /\
   Memoized.cached instance_with_9_and_16 "square4" = Some 16 /\
   memoized_square [3] instance_with_9_and_16 = (instance_with_9_and_16, [], Ret 9) /\
   memoized_square [4] instance_with_9_and_16 = (instance_with_9_and_16, [], Ret 16)) /\
  (memoized_norm [Point 1 3 (-4)] fresh_instance
     = (instance_with_norm, [Memoized.EvCompute [Point 1 3 (-4)]], Ret 7) /\
   memoized_norm [Point 2 3 (-4)] instance_with_norm = (instance_with_norm, [], Ret 7)).
Proof.
  assert (Hfirst : memoized_square [3] fresh_instance
                   = (instance_with_9, [Memoized.EvCompute [3]], Ret 9))
    by (vm_compute; reflexivity).
  assert (Hsecond : memoized_square [4] instance_with_9
                    = (instance_with_9_and_16, [Memoized.EvCompute [4]], Ret 16))
    by (vm_compute; reflexivity).
  assert (Hpoint : memoized_norm [Point 1 3 (-4)] fresh_instance
                   = (instance_with_norm, [Memoized.EvCompute [Point 1 3 (-4)]], Ret 7))
    by (vm_compute; reflexivity).
  destruct (memoized_entries_by_key str_int vars_int str_no_dict square
              fresh_instance [3] [4] instance_with_9 [Memoized.EvCompute [3]] 9
              square_keeps_cache Hfirst) as (_ & _ & Hother).
  destruct (memoized_entries_by_key str_int vars_int str_no_dict square
              fresh_instance [3] [3] instance_with_9 [Memoized.EvCompute [3]] 9
              square_keeps_cache Hfirst) as (_ & Hsame & _).
  destruct (memoized_entries_by_key str_point vars_point str_point_dict norm
              fresh_instance [Point 1 3 (-4)] [Point 2 3 (-4)] instance_with_norm
              [Memoized.EvCompute [Point 1 3 (-4)]] 7
              norm_keeps_cache Hpoint) as (_ & Hshared & _).
  destruct (Hother ltac:(discriminate) instance_with_9_and_16 _ 16 Hsecond)
    as (H1 & H2 & _ & _ & H3 & H4).
  split.
  - split; [exact Hfirst|]. split; [apply Hsame; reflexivity|].
    split; [exact Hsecond|]. split; [exact H1|]. split; [exact H2|].
    split; [exact H3 | exact H4].
  - split; [exact Hpoint | apply Hshared; reflexivity].
Defined.

(** ** retryable *)

Lemma default_kwargs_hooks_return :
  Retryable.hooks_return (Retryable.configure default_kwargs).
Proof. repeat split; intros; eexists; reflexivity. Defined.

Lemma default_kwargs_default_policy : Retryable.default_policy default_kwargs.
Proof. repeat split. Defined.

Lemma retryable_invocations_bounded_witness :
  0 <= Retryable.max_attempts (Retryable.configure default_kwargs) /\
  Retryable.max_attempts (Retryable.configure default_kwargs)
    = Retryable.max_retries default_kwargs + 1 /\
  Z.of_nat (length (Retryable.invocations
                      (trace_of (Retryable.retryable default_kwargs always_failing tt tt 0%nat))))
    <= Retryable.max_attempts (Retryable.configure default_kwargs).
Proof.
  assert (Hmax : 0 <= Retryable.max_attempts (Retryable.configure default_kwargs))
    by (cbn; lia).
  split; [exact Hmax|].
  exact (retryable_invocations_bounded default_kwargs always_failing tt tt 0%nat Hmax).
Defined.

Lemma retryable_default_always_failing_witness :
  exists w' t e1 e2 e3 e4,
    Retryable.retryable default_kwargs always_failing tt tt 0%nat = (w', t, Raise e4) /\
    Retryable.invocations t = [Raise e1; Raise e2; Raise e3; Raise e4] /\
    Retryable.on_retry_calls t = [(1, e1); (2, e2); (3, e3)] /\
    Retryable.on_failure_calls t = [(4, Some e4)].
Proof.
  apply (retryable_default_always_failing default_kwargs always_failing tt tt 0%nat
           default_kwargs_default_policy default_kwargs_hooks_return).
  intros w0. exists (S w0), boom. split; reflexivity.
Defined.

Lemma retryable_default_second_attempt_succeeds_witness :
  exists w' t d,
    Retryable.retryable default_kwargs failing_once tt tt 0%nat = (w', t, Ret 42) /\
    Retryable.invocations t = [Raise boom; Ret 42] /\
    Retryable.on_retry_calls t = [(1, boom)] /\
    Retryable.on_success_calls t = [2] /\
    Retryable.sleep_time_calls t = [(0, boom)] /\
    list_getitem (Retryable.sleep_times default_kwargs) 0 = Ret d /\
    Retryable.waits t = [d].
Proof.
  apply (retryable_default_second_attempt_succeeds default_kwargs failing_once tt tt
           0%nat 1%nat boom 42
           default_kwargs_default_policy default_kwargs_hooks_return
           eq_refl eq_refl).
  intros w2 [= <-]. exists 2%nat. reflexivity.
Defined.

Lemma retryable_zero_retries_witness :
  exists t,
    Retryable.retryable zero_retries_kwargs always_failing tt tt 0%nat
      = (1%nat, t, Raise boom) /\
    Retryable.invocations t = [Raise boom] /\
    Retryable.on_retry_calls t = [] /\
    Retryable.waits t = [] /\
    Retryable.on_failure_calls t = [(1, Some boom)].
Proof.
  exact (retryable_zero_retries zero_retries_kwargs always_failing tt tt 0%nat
           1%nat 1%nat boom eq_refl eq_refl eq_refl eq_refl eq_refl).
Defined.

Lemma retryable_empty_handled_types_is_default_witness :
  exists rest,
    trace_of (Retryable.retryable
                (Retryable.with_handled_exception_types (Some []) default_kwargs)
                failing_once tt tt 0%nat)
    = first_attempt_failed ++ Retryable.EvInvoke (Ret 42) :: rest.
Proof.
  assert (Hfirst : 0 < Retryable.max_attempts (Retryable.configure default_kwargs))
    by (vm_compute; reflexivity).
  assert (Hsecond : 1 < Retryable.max_attempts (Retryable.configure default_kwargs))
    by (vm_compute; reflexivity).
  destruct (retryable_empty_handled_types_is_default default_kwargs failing_once tt tt
              0%nat 1%nat boom Hfirst eq_refl) as (_ & _ & _ & Hhandled & _).
  destruct (Hhandled eq_refl) as [_ Hretried].
  exact (Hretried 1%nat 1%nat 1%nat 0 Hsecond eq_refl eq_refl eq_refl ltac:(lia)).
Defined.

Lemma retryable_unhandled_failure_propagates_witness :
  trace_of (Retryable.retryable default_kwargs failing_then_interrupted tt tt 0%nat)
    = first_attempt_failed ++ Retryable.EvInvoke (Raise interrupt) :: [] /\
  isinstance_any interrupt
    (Retryable.handled_exception_types (Retryable.configure default_kwargs)) = false /\
  result_of (Retryable.retryable default_kwargs failing_then_interrupted tt tt 0%nat)
    = Raise interrupt.
Proof.
  assert (Htrace :
            trace_of (Retryable.retryable default_kwargs failing_then_interrupted tt tt 0%nat)
            = first_attempt_failed ++ Retryable.EvInvoke (Raise interrupt) :: [])
    by (vm_compute; reflexivity).
  assert (Hunhandled :
            isinstance_any interrupt
              (Retryable.handled_exception_types (Retryable.configure default_kwargs))
            = false) by (vm_compute; reflexivity).
  split; [exact Htrace|]. split; [exact Hunhandled|].
  exact (proj2 (retryable_unhandled_failure_propagates default_kwargs
                  failing_then_interrupted tt tt 0%nat first_attempt_failed interrupt []
                  Htrace Hunhandled)).
Defined.

(** *** Runs at the edges of the configuration *)

(** A negative [max_retries]: the loop is not entered, the failure hook is
    called with 0 attempts and no exception, and [raise None] fails. *)
Example negative_max_retries_run :
  Retryable.retryable negative_retries_kwargs always_failing tt tt 0%nat
  = (0%nat, [Retryable.EvOnFailure 0 None],
     Raise (TypeError "exceptions must derive from BaseException")).
Proof. vm_compute. reflexivity. Qed.

(** C4. The code at [max_retries = 0] with a retry predicate that always
    says yes, for a wrapped function that raises a handled exception. The
    function is called once, the failure hook is called once with 1 attempt,
    and the exception leaves the decorated function; but the retry hook is
    called and the wait is made, although no retry follows: the retry hook
    does fire, where it is documented as called if and when a retry
    occurs. *)
Theorem retryable_zero_retries_eager_predicate :
  Retryable.kw_max_retries eager_kwargs = Some 0 /\
  always_failing tt tt 0%nat = (1%nat, Raise boom) /\
  isinstance_any boom
    (Retryable.handled_exception_types (Retryable.configure eager_kwargs)) = true /\
  Retryable.retryable eager_kwargs always_failing tt tt 0%nat
  = (1%nat,
     [Retryable.EvInvoke (Raise boom); Retryable.EvShouldRetry 1 boom;
      Retryable.EvOnRetry 1 boom; Retryable.EvSleepTime 0 boom; Retryable.EvSleep 0;
      Retryable.EvOnFailure 1 (Some boom)],
     Raise boom) /\
  Retryable.invocations
    (trace_of (Retryable.retryable eager_kwargs always_failing tt tt 0%nat))
  = [Raise boom] /\
  Retryable.on_retry_calls
    (trace_of (Retryable.retryable eager_kwargs always_failing tt tt 0%nat))
  = [(1, boom)] /\
  Retryable.waits
    (trace_of (Retryable.retryable eager_kwargs always_failing tt tt 0%nat))
  = [0] /\
  Retryable.on_failure_calls
    (trace_of (Retryable.retryable eager_kwargs always_failing tt tt 0%nat))
  = [(1, Some boom)].
Proof. repeat split; vm_compute; reflexivity. Qed.

(** More retries than sleep times: the fourth failure asks for
    [sleep_times[3]], and the [IndexError] leaves the decorated function. *)
Example short_schedule_run :
  result_of (Retryable.retryable four_retries_kwargs always_failing tt tt 0%nat)
    = Raise (IndexError "list index out of range") /\
  length (Retryable.invocations
            (trace_of (Retryable.retryable four_retries_kwargs always_failing tt tt 0%nat)))
    = 4%nat /\
  Retryable.on_failure_calls
    (trace_of (Retryable.retryable four_retries_kwargs always_failing tt tt 0%nat)) = [].
Proof. repeat split; vm_compute; reflexivity. Qed.

(** Only [KeyError] is handled: a [ValueError] of the first call leaves at
    once. *)
Example unhandled_first_attempt_run :
  Retryable.retryable key_error_kwargs always_failing tt tt 0%nat
  = (1%nat, [Retryable.EvInvoke (Raise boom)], Raise boom).
Proof. vm_compute. reflexivity. Qed.

(** The success hook runs inside the [try] block: when it raises a handled
    exception, the wrapped function is called again although it returned. *)
Example failing_success_hook_run :
  Retryable.invocations
    (trace_of (Retryable.retryable failing_success_hook_kwargs always_returning tt tt 0%nat))
  = [Ret 42; Ret 42].
Proof. vm_compute. reflexivity. Qed.

(** ** timed *)

Lemma timed_records_after_normal_return_witness :
  Timed.timed clock milliseconds 1 (Some null_client) (Some "db") None = Ret timed_db /\
  timed_db fetch_failing tt tt 0%nat
    = (1%nat, [Timed.EvInvoke (Raise boom)], Raise boom) /\
  Timed.samples (trace_of (timed_db fetch_failing tt tt 0%nat)) = [] /\
  timed_db fetch tt tt 0%nat
    = (2%nat, [Timed.EvInvoke (Ret 7); Timed.EvRecordTiming "db.fetch" 1000 1], Ret 7) /\
  Timed.samples (trace_of (timed_db fetch tt tt 0%nat)) = [("db.fetch", 1000, 1)].
Proof.
  assert (Hbuilt : Timed.timed clock milliseconds 1 (Some null_client) (Some "db") None
                   = Ret timed_db) by reflexivity.
  split; [exact Hbuilt|].
  destruct (timed_records_after_normal_return clock milliseconds 1
              (Some null_client) (Some "db") None timed_db fetch_failing tt tt 0%nat
              Hbuilt) as (_ & _ & Hraises & _).
  destruct (timed_records_after_normal_return clock milliseconds 1
              (Some null_client) (Some "db") None timed_db fetch tt tt 0%nat
              Hbuilt) as (record & Hrecord & _ & Hreturns).
  injection Hrecord as <-.
  destruct (Hraises 1%nat boom eq_refl) as [Hrun Hnone].
  split; [exact Hrun|]. split; [exact Hnone|].
  exact (Hreturns 1%nat 7 2%nat (Ret tt) eq_refl eq_refl).
Defined.

End Instances.

(** * Further properties of the code *)

(** ** retryable: the loop as a whole *)

(** One iteration of the loop, or the code after it. *)
Lemma retry_loop_step {Obj Args T W : Type} (c : Retryable.closure Obj W)
    (receiver : Obj -> Args -> W -> W * outcome T) self args attempt last w :
  Retryable.while_loop c receiver self args attempt last w =
  if Z_lt_dec attempt (Retryable.max_attempts c) then
    match Retryable.iteration c receiver self args (attempt + 1) w with
    | (w1, t1, Retryable.Returned result) => (w1, t1, Ret result)
    | (w1, t1, Retryable.Escaped e) => (w1, t1, Raise e)
    | (w1, t1, Retryable.Broke e) =>
        after t1 (Retryable.after_loop c self (attempt + 1) (Some e) w1)
    | (w1, t1, Retryable.Again e) =>
        after t1 (Retryable.while_loop c receiver self args (attempt + 1) (Some e) w1)
    end
  else Retryable.after_loop c self attempt last w.
Proof. apply while_loop_unfold. Qed.

Section RetryableLoop.
Import Retryable RetryEvents.
Context {Obj Args T W : Type}.
Implicit Types (kw : kwargs Obj W) (c : closure Obj W).
Implicit Types (receiver : Obj -> Args -> W -> W * outcome T).
Implicit Types (t : list (event T)) (w : W) (e : exn).

(** Reasoning by cases on how the loop goes on: a property of finished runs
    holds of the loop from every attempt if it holds of the code after the
    loop, of every iteration that leaves the function, and is kept by an
    iteration that asks for another one. *)
Lemma while_loop_cases c receiver self args
    (P : Z -> W * list (event T) * outcome T -> Prop) :
  (forall attempt last w,
      ~ attempt < max_attempts c -> P attempt (after_loop c self attempt last w)) ->
  (forall attempt w w1 t1 result,
      attempt < max_attempts c ->
      iteration c receiver self args (attempt + 1) w = (w1, t1, Returned result) ->
      P attempt (w1, t1, Ret result)) ->
  (forall attempt w w1 t1 e,
      attempt < max_attempts c ->
      iteration c receiver self args (attempt + 1) w = (w1, t1, Escaped e) ->
      P attempt (w1, t1, Raise e)) ->
  (forall attempt w w1 t1 e,
      attempt < max_attempts c ->
      iteration c receiver self args (attempt + 1) w = (w1, t1, Broke e) ->
      P attempt (after t1 (after_loop c self (attempt + 1) (Some e) w1))) ->
  (forall attempt w w1 t1 e r,
      attempt < max_attempts c ->
      iteration c receiver self args (attempt + 1) w = (w1, t1, Again e) ->
      P (attempt + 1) r -> P attempt (after t1 r)) ->
  forall attempt last w, P attempt (while_loop c receiver self args attempt last w).
Proof.
  intros Hafter Hreturned Hescaped Hbroke Hagain attempt last w.
  remember (Z.to_nat (max_attempts c - attempt)) as n eqn:Hn.
  revert attempt last w Hn.
  induction n as [|n IH]; intros attempt last w Hn;
    rewrite retry_loop_step;
    destruct (Z_lt_dec attempt (max_attempts c)) as [Hlt | Hge];
    try (apply Hafter; assumption); [lia|].
  destruct (iteration c receiver self args (attempt + 1) w) as [[w1 t1] r] eqn:Hiter.
  destruct r as [result | e | e | e].
  - exact (Hreturned attempt w w1 t1 result Hlt Hiter).
  - exact (Hescaped attempt w w1 t1 e Hlt Hiter).
  - apply (Hagain attempt w w1 t1 e _ Hlt Hiter). apply IH. lia.
  - exact (Hbroke attempt w w1 t1 e Hlt Hiter).
Qed.

(** What the code after the loop does: one call of the failure hook, then an
    exception. *)
Lemma after_loop_shape c self attempt last w :
  exists w1 e,
    after_loop (T := T) c self attempt last w = (w1, [EvOnFailure attempt last], Raise e).
Proof.
  unfold after_loop, on_failure, bind, emit, lift, raise. cbn.
  destruct (on_failure_callback c self attempt last w) as [w1 [[] | e1]];
    [destruct last|]; eexists _, _; reflexivity.
Qed.

(** The events of the [try] block and of the [except] block belong to the
    attempt they are run for. *)
Lemma try_block_of_attempt c receiver self args attempt w :
  Forall (of_attempt attempt) (trace_of (try_block c receiver self args attempt w)).
Proof.
  unfold try_block, invoke, on_success, trace_of, bind, emit, lift, ret.
  destruct (receiver self args w) as [w1 [r | e]]; cbn; [|repeat constructor].
  destruct (on_success_callback c self attempt w1) as [w2 [[] | e]]; cbn;
    repeat constructor.
Qed.

Lemma except_block_of_attempt c self attempt e w :
  Forall (of_attempt (T := T) attempt) (trace_of (except_block c self attempt e w)).
Proof.
  unfold except_block, should_retry, on_retry, sleep_time, time_sleep, trace_of,
    bind, emit, lift, ret, raise. cbn.
  destruct (should_retry_callback c self attempt e w) as [w3 [[] | e3]]; cbn;
    try (repeat constructor; fail).
  destruct (on_retry_callback c self attempt e w3) as [w4 [[] | e4]]; cbn;
    try (repeat constructor; fail).
  destruct (sleep_time_callback c self (attempt - 1) e w4) as [w5 [d | e5]]; cbn;
    try (repeat constructor; fail).
  destruct (d <? 0); cbn; repeat constructor.
Qed.

(** The events of an iteration all belong to its attempt. *)
Lemma iteration_of_attempt c receiver self args attempt w :
  Forall (of_attempt attempt) (trace_of (iteration c receiver self args attempt w)).
Proof.
  pose proof (try_block_of_attempt c receiver self args attempt w) as Htry.
  unfold iteration.
  destruct (try_block c receiver self args attempt w) as [[w1 t1] [r | e]];
    [exact Htry|].
  destruct (isinstance_any e (handled_exception_types c)); [|exact Htry].
  pose proof (except_block_of_attempt c self attempt e w1) as Hexcept.
  destruct (except_block c self attempt e w1) as [[w2 t2] [[|] | e2]];
    apply Forall_app; split; assumption.
Qed.

(** An iteration that returns consists of the call and the success hook. *)
Lemma iteration_returned_trace c receiver self args attempt w w1 t1 result :
  iteration c receiver self args attempt w = (w1, t1, Returned result) ->
  t1 = [EvInvoke (Ret result); EvOnSuccess attempt].
Proof.
  unfold iteration.
  destruct (try_block c receiver self args attempt w) as [[w0 t0] [r | e]] eqn:Htry.
  - intros [= <- <- <-]. revert Htry.
    unfold try_block, invoke, on_success, bind, emit, lift, ret.
    destruct (receiver self args w) as [w2 [r' | e]]; cbn; [|discriminate].
    destruct (on_success_callback c self attempt w2) as [w3 [[] | e]]; cbn;
      [|discriminate].
    intros [= _ <- <-]. reflexivity.
  - destruct (isinstance_any e (handled_exception_types c)); [|discriminate].
    destruct (except_block c self attempt e w0) as [[w3 t3] [[|] | e3]];
      discriminate.
Qed.

(** Events that belong to an attempt are no calls of the failure hook. *)
Lemma of_attempt_no_failure_hook attempt t :
  Forall (of_attempt attempt) t -> on_failure_calls t = [].
Proof.
  induction 1 as [|ev t Hev _ IH]; [reflexivity|].
  destruct ev; cbn in *; try assumption. contradiction.
Qed.

Lemma on_failure_calls_app t1 t2 :
  on_failure_calls (t1 ++ t2) = on_failure_calls t1 ++ on_failure_calls t2.
Proof. apply omap_app. Qed.

Lemma trace_of_after {A} t (r : W * list (event T) * outcome A) :
  trace_of (after t r) = t ++ trace_of r.
Proof. destruct r as [[w1 t1] o]. reflexivity. Qed.

Lemma result_of_after {A} t (r : W * list (event T) * outcome A) :
  result_of (after t r) = result_of r.
Proof. destruct r as [[w1 t1] o]. reflexivity. Qed.

Lemma of_attempt_in_range m attempt (ev : event T) :
  1 <= attempt <= m -> of_attempt attempt ev -> in_range m ev.
Proof. destruct ev; cbn; intros; subst; try lia; contradiction. Qed.

(** X9. Whatever the configuration and the wrapped function: the attempt
    numbers handed to the success hook, the retry predicate and the retry
    hook lie between 1 and [max_attempts], the index handed to the sleep-time
    provider between 0 and [max_attempts - 1] (so a list of sleep times is
    never read from its end), and the failure hook gets a number between 0
    and [max_attempts]. *)
Theorem retryable_attempt_numbers_in_range kw receiver self args w :
  Forall (in_range (max_attempts (configure kw)))
    (trace_of (retryable kw receiver self args w)).
Proof.
  unfold retryable, with_retry.
  generalize (configure kw). intros c.
  enough (H : 0 <= 0 <= Z.max 0 (max_attempts c) ->
              Forall (in_range (max_attempts c))
                (trace_of (while_loop c receiver self args 0 None w)))
    by (apply H; lia).
  apply (while_loop_cases c receiver self args
           (fun attempt r => 0 <= attempt <= Z.max 0 (max_attempts c) ->
                             Forall (in_range (max_attempts c)) (trace_of r))).
  - intros attempt last w0 _ Hrange.
    destruct (after_loop_shape c self attempt last w0) as (w1 & e & ->).
    apply List.Forall_cons; [cbn; lia | apply List.Forall_nil].
  - intros attempt w0 w1 t1 result Hlt Hiter Hrange.
    pose proof (iteration_of_attempt c receiver self args (attempt + 1) w0) as Hev.
    rewrite Hiter in Hev. eapply Forall_impl; [exact Hev|].
    intros ev. apply of_attempt_in_range. lia.
  - intros attempt w0 w1 t1 e Hlt Hiter Hrange.
    pose proof (iteration_of_attempt c receiver self args (attempt + 1) w0) as Hev.
    rewrite Hiter in Hev. eapply Forall_impl; [exact Hev|].
    intros ev. apply of_attempt_in_range. lia.
  - intros attempt w0 w1 t1 e Hlt Hiter Hrange.
    pose proof (iteration_of_attempt c receiver self args (attempt + 1) w0) as Hev.
    rewrite Hiter in Hev.
    destruct (after_loop_shape c self (attempt + 1) (Some e) w1)
      as (w2 & e' & ->).
    apply Forall_app. split.
    + eapply Forall_impl; [exact Hev|]. intros ev. apply of_attempt_in_range. lia.
    + apply List.Forall_cons; [cbn; lia | apply List.Forall_nil].
  - intros attempt w0 w1 t1 e r Hlt Hiter IH Hrange.
    pose proof (iteration_of_attempt c receiver self args (attempt + 1) w0) as Hev.
    rewrite Hiter in Hev. rewrite trace_of_after.
    apply Forall_app. split.
    + eapply Forall_impl; [exact Hev|]. intros ev. apply of_attempt_in_range. lia.
    + apply IH. lia.
Qed.

(** X10. Whatever the configuration and the wrapped function: the failure
    hook is called at most once, its call is the last event of the run, and
    a run in which it was called ends in an exception. *)
Theorem retryable_failure_hook_is_last kw receiver self args w :
  on_failure_calls (trace_of (retryable kw receiver self args w)) = [] \/
  exists pre n last e,
    trace_of (retryable kw receiver self args w) = pre ++ [EvOnFailure n last] /\
    on_failure_calls pre = [] /\
    result_of (retryable kw receiver self args w) = Raise e.
Proof.
  unfold retryable, with_retry.
  generalize (configure kw). intros c.
  apply (while_loop_cases c receiver self args
           (fun _ r =>
              on_failure_calls (trace_of r) = [] \/
              exists pre n last e,
                trace_of r = pre ++ [EvOnFailure n last] /\
                on_failure_calls pre = [] /\ result_of r = Raise e)).
  - intros attempt last w0 _. right.
    destruct (after_loop_shape c self attempt last w0) as (w1 & e & ->).
    exists [], attempt, last, e. repeat split.
  - intros attempt w0 w1 t1 result _ Hiter. left.
    pose proof (iteration_of_attempt c receiver self args (attempt + 1) w0) as Hev.
    rewrite Hiter in Hev. exact (of_attempt_no_failure_hook _ _ Hev).
  - intros attempt w0 w1 t1 e _ Hiter. left.
    pose proof (iteration_of_attempt c receiver self args (attempt + 1) w0) as Hev.
    rewrite Hiter in Hev. exact (of_attempt_no_failure_hook _ _ Hev).
  - intros attempt w0 w1 t1 e _ Hiter. right.
    pose proof (iteration_of_attempt c receiver self args (attempt + 1) w0) as Hev.
    rewrite Hiter in Hev.
    destruct (after_loop_shape c self (attempt + 1) (Some e) w1)
      as (w2 & e' & ->).
    exists t1, (attempt + 1), (Some e), e'.
    split; [reflexivity|]. split; [|reflexivity].
    exact (of_attempt_no_failure_hook _ _ Hev).
  - intros attempt w0 w1 t1 e r _ Hiter IH.
    pose proof (iteration_of_attempt c receiver self args (attempt + 1) w0) as Hev.
    rewrite Hiter in Hev. apply of_attempt_no_failure_hook in Hev.
    change (trace_of (w1, t1, Again e)) with t1 in Hev.
    rewrite trace_of_after, result_of_after.
    destruct IH as [Hnone | (pre & n & last & e' & Htrace & Hpre & Hresult)].
    + left. rewrite on_failure_calls_app, Hev, Hnone. reflexivity.
    + right. exists (t1 ++ pre), n, last, e'.
      split; [rewrite Htrace; apply app_assoc|].
      split; [rewrite on_failure_calls_app, Hev, Hpre; reflexivity | exact Hresult].
Qed.

(** X11. Whatever the configuration: a value that the decorated function
    returns is the value the wrapped function returned in its last call; the
    call of the success hook is the only event after that call, and the
    failure hook was not called. *)
Theorem retryable_returns_last_result kw receiver self args w v :
  result_of (retryable kw receiver self args w) = Ret v ->
  exists pre n,
    trace_of (retryable kw receiver self args w)
      = pre ++ [EvInvoke (Ret v); EvOnSuccess n] /\
    on_failure_calls (trace_of (retryable kw receiver self args w)) = [].
Proof.
  unfold retryable, with_retry.
  generalize (configure kw). intros c.
  apply (while_loop_cases c receiver self args
           (fun _ r =>
              result_of r = Ret v ->
              exists pre n,
                trace_of r = pre ++ [EvInvoke (Ret v); EvOnSuccess n] /\
                on_failure_calls (trace_of r) = [])).
  - intros attempt last w0 _.
    destruct (after_loop_shape c self attempt last w0) as (w1 & e & ->).
    discriminate.
  - intros attempt w0 w1 t1 result _ Hiter [= ->].
    rewrite (iteration_returned_trace c receiver self args _ _ _ _ _ Hiter).
    exists [], (attempt + 1). split; reflexivity.
  - intros attempt w0 w1 t1 e _ Hiter. discriminate.
  - intros attempt w0 w1 t1 e _ Hiter.
    destruct (after_loop_shape c self (attempt + 1) (Some e) w1)
      as (w2 & e' & ->).
    discriminate.
  - intros attempt w0 w1 t1 e r _ Hiter IH.
    pose proof (iteration_of_attempt c receiver self args (attempt + 1) w0) as Hev.
    rewrite Hiter in Hev. apply of_attempt_no_failure_hook in Hev.
    change (trace_of (w1, t1, Again e)) with t1 in Hev.
    rewrite trace_of_after, result_of_after. intros Hresult.
    destruct (IH Hresult) as (pre & n & Htrace & Hnone).
    exists (t1 ++ pre), n.
    split; [rewrite Htrace; apply app_assoc|].
    rewrite on_failure_calls_app, Hev, Hnone. reflexivity.
Qed.

End RetryableLoop.

(** ** retryable: single paths through the loop *)
Section RetryablePaths.
Import Retryable.
Context {Obj Args T W : Type}.
Implicit Types (kw : kwargs Obj W) (c : closure Obj W).
Implicit Types (receiver : Obj -> Args -> W -> W * outcome T).
Implicit Types (t : list (event T)) (w : W) (e : exn).

Ltac run_first_iteration :=
  unfold with_retry; rewrite retry_loop_step;
  match goal with
  | |- context [Z_lt_dec 0 ?m] => destruct (Z_lt_dec 0 m); [|lia]
  end;
  change (0 + 1) with 1;
  unfold iteration, try_block, except_block, after_loop, invoke, on_success,
    should_retry, on_retry, sleep_time, on_failure, time_sleep, bind, emit,
    lift, ret, raise.

(** X1. Whatever else the configuration says, as long as it allows one
    attempt: when the first call of the wrapped function returns (and the
    success hook returns), that call is the only one, the success hook is
    called with 1, nothing else is called and no wait is made; the value is
    returned as it is. *)
Theorem retryable_first_attempt_succeeds kw receiver self args w w1 w2 result :
  0 < max_attempts (configure kw) ->
  receiver self args w = (w1, Ret result) ->
  on_success_callback (configure kw) self 1 w1 = (w2, Ret tt) ->
  retryable kw receiver self args w
    = (w2, [EvInvoke (Ret result); EvOnSuccess 1], Ret result).
Proof.
  unfold retryable. generalize (configure kw). intros c Hmax Hcall Hhook.
  run_first_iteration.
  rewrite Hcall. cbn. rewrite Hhook. reflexivity.
Qed.

(** X2. A [max_retries] below 0 leaves no attempt: the wrapped function is
    not called at all, the failure hook is called with 0 attempts and [None]
    for the exception, and the decorated function fails with the
    [TypeError] of [raise None]. *)
Theorem retryable_without_attempts kw receiver self args w w1 :
  max_retries kw < 0 ->
  on_failure_callback (configure kw) self 0 None w = (w1, Ret tt) ->
  retryable kw receiver self args w
    = (w1, [EvOnFailure 0 None],
       Raise (TypeError "exceptions must derive from BaseException")).
Proof.
  intros Hneg.
  assert (Hmax : max_attempts (configure kw) <= 0) by (cbn; lia).
  revert Hmax. unfold retryable. generalize (configure kw). intros c Hmax Hhook.
  unfold with_retry. rewrite retry_loop_step.
  destruct (Z_lt_dec 0 (max_attempts c)) as [Hlt | _]; [lia|].
  unfold after_loop, on_failure, bind, emit, lift, raise. cbn.
  rewrite Hhook. reflexivity.
Qed.

(** X3. A retry predicate that says no after the first failure ends the
    run there, however many retries are configured: one call, no retry hook,
    no wait, the failure hook with 1 attempt, and the exception of that call
    is raised. *)
Theorem retryable_predicate_veto kw receiver self args w w1 w2 w3 e :
  0 < max_attempts (configure kw) ->
  receiver self args w = (w1, Raise e) ->
  isinstance_any e (handled_exception_types (configure kw)) = true ->
  should_retry_callback (configure kw) self 1 e w1 = (w2, Ret false) ->
  on_failure_callback (configure kw) self 1 (Some e) w2 = (w3, Ret tt) ->
  retryable kw receiver self args w
    = (w3, [EvInvoke (Raise e); EvShouldRetry 1 e; EvOnFailure 1 (Some e)], Raise e).
Proof.
  unfold retryable. generalize (configure kw).
  intros c Hmax Hcall Hhandled Hpred Hhook. run_first_iteration.
  rewrite Hcall, Hhandled. cbn. rewrite Hpred. cbn. rewrite Hhook. reflexivity.
Qed.

(** X4. With a single attempt ([max_retries = 0]) and a retry predicate that
    says yes, the retry hook is called and the wait is made although no
    attempt follows: the loop ends on its own condition, the failure hook is
    called and the exception raised. *)
Theorem retryable_retry_hook_without_retry
    kw receiver self args w w1 w2 w3 w4 w5 e d :
  max_attempts (configure kw) = 1 ->
  receiver self args w = (w1, Raise e) ->
  isinstance_any e (handled_exception_types (configure kw)) = true ->
  should_retry_callback (configure kw) self 1 e w1 = (w2, Ret true) ->
  on_retry_callback (configure kw) self 1 e w2 = (w3, Ret tt) ->
  sleep_time_callback (configure kw) self 0 e w3 = (w4, Ret d) ->
  0 <= d ->
  on_failure_callback (configure kw) self 1 (Some e) w4 = (w5, Ret tt) ->
  retryable kw receiver self args w
    = (w5,
       [EvInvoke (Raise e); EvShouldRetry 1 e; EvOnRetry 1 e; EvSleepTime 0 e;
        EvSleep d; EvOnFailure 1 (Some e)],
       Raise e).
Proof.
  intros Hmax Hcall Hhandled Hpred Hretry Hsleep Hd Hhook.
  unfold retryable, with_retry. rewrite retry_loop_step.
  destruct (Z_lt_dec 0 (max_attempts (configure kw))) as [_ | Hge]; [|lia].
  rewrite (iteration_again _ receiver self args (0 + 1) w w1 w2 w3 w4 e d);
    try assumption.
  rewrite retry_loop_step.
  destruct (Z_lt_dec (0 + 1) (max_attempts (configure kw))) as [Hlt | _]; [lia|].
  rewrite (after_loop_raises _ self (0 + 1) w4 w5 e Hhook). reflexivity.
Qed.

(** X5. The success hook runs inside the [try] block. When it raises after
    the wrapped function has returned, the value is dropped: an exception
    that is not handled leaves the decorated function; a handled one is
    treated as a failure of the attempt, and the retry predicate is asked
    about it. *)
Theorem retryable_success_hook_raises kw receiver self args w w1 w2 result e :
  0 < max_attempts (configure kw) ->
  receiver self args w = (w1, Ret result) ->
  on_success_callback (configure kw) self 1 w1 = (w2, Raise e) ->
  (isinstance_any e (handled_exception_types (configure kw)) = false ->
   retryable kw receiver self args w
     = (w2, [EvInvoke (Ret result); EvOnSuccess 1], Raise e)) /\
  (isinstance_any e (handled_exception_types (configure kw)) = true ->
   exists rest,
     trace_of (retryable kw receiver self args w)
       = EvInvoke (Ret result) :: EvOnSuccess 1 :: EvShouldRetry 1 e :: rest).
Proof.
  unfold retryable. generalize (configure kw). intros c Hmax Hcall Hhook.
  split; intros Hhandled.
  - run_first_iteration.
    rewrite Hcall. cbn. rewrite Hhook. cbn. rewrite Hhandled. reflexivity.
  - unfold with_retry. rewrite retry_loop_step.
    destruct (Z_lt_dec 0 (max_attempts c)) as [_ | Hge]; [|lia].
    change (0 + 1) with 1.
    assert (Htry : try_block c receiver self args 1 w
                   = (w2, [EvInvoke (Ret result); EvOnSuccess 1], Raise e)).
    { unfold try_block, invoke, on_success, bind, emit, lift, ret.
      rewrite Hcall. cbn. rewrite Hhook. reflexivity. }
    assert (Hexcept : exists w3 rest o,
               except_block (T := T) c self 1 e w2
               = (w3, EvShouldRetry 1 e :: rest, o)).
    { unfold except_block, should_retry, bind, emit, lift. cbn.
      destruct (should_retry_callback c self 1 e w2) as [w3 [go | e3]];
        cbn; [|eexists _, _, _; reflexivity].
      match goal with
      | |- context [(if negb go then ?a else ?b) w3] =>
          destruct ((if negb go then a else b) w3) as [[w4 t4] o4]
      end.
      eexists _, _, _; reflexivity. }
    destruct Hexcept as (w3 & rest & o & Hexcept).
    unfold iteration. rewrite Htry, Hhandled, Hexcept.
    destruct o as [[|] | e3].
    + destruct (while_loop c receiver self args 1 (Some e) w3)
        as [[w4 t4] o4]. eexists. reflexivity.
    + destruct (after_loop c self 1 (Some e) w3)
        as [[w4 t4] o4]. eexists. reflexivity.
    + eexists. reflexivity.
Qed.

(** X6. An exception raised inside the [except] block leaves the decorated
    function at once and replaces the failure of the wrapped function: when
    the retry predicate raises, neither the retry hook nor the failure hook
    is called and no further attempt is made. *)
Theorem retryable_predicate_raises kw receiver self args w w1 w2 e e' :
  0 < max_attempts (configure kw) ->
  receiver self args w = (w1, Raise e) ->
  isinstance_any e (handled_exception_types (configure kw)) = true ->
  should_retry_callback (configure kw) self 1 e w1 = (w2, Raise e') ->
  retryable kw receiver self args w
    = (w2, [EvInvoke (Raise e); EvShouldRetry 1 e], Raise e').
Proof.
  unfold retryable. generalize (configure kw).
  intros c Hmax Hcall Hhandled Hpred. run_first_iteration.
  rewrite Hcall, Hhandled. cbn. rewrite Hpred. reflexivity.
Qed.

End RetryablePaths.

(** ** retryable: the default predicate and the list of sleep times *)

Lemma list_getitem_lookup {A} (l : list A) (i : Z) (x : A) :
  0 <= i -> l !! Z.to_nat i = Some x -> list_getitem l i = Ret x.
Proof.
  intros Hi Hx. unfold list_getitem.
  pose proof (lookup_lt_Some _ _ _ Hx) as Hlt.
  rewrite (proj2 (Z.ltb_ge i 0) Hi).
  rewrite (proj2 (Z.leb_le 0 i) Hi), (proj2 (Z.ltb_lt i _)) by lia.
  cbn. rewrite Hx. reflexivity.
Qed.

Lemma list_getitem_beyond {A} (l : list A) (i : Z) :
  Z.of_nat (length l) <= i ->
  list_getitem l i = Raise (IndexError "list index out of range").
Proof.
  intros Hi. unfold list_getitem.
  rewrite (proj2 (Z.ltb_ge i 0)) by lia.
  rewrite (proj2 (Z.ltb_ge i _) Hi), andb_false_r. reflexivity.
Qed.

Section RetryableSchedules.
Import Retryable.
Context {Obj Args T W : Type}.
Implicit Types (kw : kwargs Obj W) (c : closure Obj W).
Implicit Types (receiver : Obj -> Args -> W -> W * outcome T).
Implicit Types (t : list (event T)) (w : W) (e : exn).

(** With the default predicate and the default provider, a failed attempt
    that is not the last one is followed by the retry hook, by the wait the
    list has at the number of retries made so far, and by the next
    attempt. *)
Lemma default_callbacks_retry kw receiver self args attempt last w w1 w2 e d :
  kw_should_retry_callback kw = None ->
  kw_sleep_time_callback kw = None ->
  0 <= attempt < max_retries kw ->
  receiver self args w = (w1, Raise e) ->
  isinstance_any e (handled_exception_types (configure kw)) = true ->
  on_retry_callback (configure kw) self (attempt + 1) e w1 = (w2, Ret tt) ->
  sleep_times kw !! Z.to_nat attempt = Some d ->
  0 <= d ->
  while_loop (configure kw) receiver self args attempt last w
  = after [EvInvoke (Raise e); EvShouldRetry (attempt + 1) e;
           EvOnRetry (attempt + 1) e; EvSleepTime attempt e; EvSleep d]
      (while_loop (configure kw) receiver self args (attempt + 1) (Some e) w2).
Proof.
  intros Hpred Hprov Hattempt Hcall Hhandled Hhook Hd Hpos.
  rewrite retry_loop_step.
  destruct (Z_lt_dec attempt (max_attempts (configure kw))) as [_ | Hge];
    [|cbn in Hge; lia].
  rewrite (iteration_again _ receiver self args (attempt + 1) w w1 w1 w2 w2 e d);
    try assumption.
  - replace (attempt + 1 - 1) with attempt by lia. reflexivity.
  - cbn. rewrite Hpred. do 2 f_equal. rewrite Z.ltb_lt. lia.
  - cbn. rewrite Hprov. replace (attempt + 1 - 1) with attempt by lia.
    rewrite (list_getitem_lookup _ attempt d); [reflexivity | lia | assumption].
Qed.

Lemma waits_app t1 t2 : waits (t1 ++ t2) = waits t1 ++ waits t2.
Proof. apply omap_app. Qed.

Lemma on_retry_calls_app t1 t2 :
  on_retry_calls (t1 ++ t2) = on_retry_calls t1 ++ on_retry_calls t2.
Proof. apply omap_app. Qed.

(** The loop from [attempt] on, for a wrapped function that always fails
    and a list of sleep times that is long enough. *)
Lemma default_callbacks_exhaust kw receiver self args :
  kw_should_retry_callback kw = None ->
  kw_sleep_time_callback kw = None ->
  hooks_return (configure kw) ->
  max_retries kw <= Z.of_nat (length (sleep_times kw)) ->
  Forall (fun d => 0 <= d) (sleep_times kw) ->
  (forall w0, exists w1 e,
      receiver self args w0 = (w1, Raise e) /\
      isinstance_any e (handled_exception_types (configure kw)) = true) ->
  forall (k : nat) attempt last_exception w,
    0 <= attempt <= max_retries kw ->
    Z.to_nat (max_retries kw - attempt) = k ->
    exists w' t e,
      while_loop (configure kw) receiver self args attempt last_exception w
        = (w', t, Raise e) /\
      Z.of_nat (length (invocations t)) = max_retries kw + 1 - attempt /\
      last (invocations t) = Some (Raise e) /\
      waits t = take k (drop (Z.to_nat attempt) (sleep_times kw)) /\
      (on_retry_calls t).*1 = seqZ (attempt + 1) (max_retries kw - attempt) /\
      on_failure_calls t = [(max_retries kw + 1, Some e)].
Proof.
  intros Hpred Hprov Hhooks Hlen Hpos Hfails.
  induction k as [|k IH]; intros attempt last_exception w Hattempt Hk.
  - assert (attempt = max_retries kw) as -> by lia.
    destruct (Hfails w) as (w1 & e & Hcall & Hhandled).
    destruct Hhooks as (_ & _ & Hfailure).
    destruct (Hfailure self (max_retries kw + 1) (Some e) w1) as [w2 Hhook].
    exists w2, [EvInvoke (Raise e); EvShouldRetry (max_retries kw + 1) e;
                EvOnFailure (max_retries kw + 1) (Some e)], e.
    split.
    + rewrite retry_loop_step.
      destruct (Z_lt_dec (max_retries kw) (max_attempts (configure kw)))
        as [_ | Hge]; [|cbn in Hge; lia].
      rewrite (iteration_broke _ receiver self args _ w w1 w1 e Hcall Hhandled).
      * rewrite (after_loop_raises _ self _ w1 w2 e Hhook). reflexivity.
      * cbn. rewrite Hpred. do 2 f_equal. rewrite Z.ltb_ge. lia.
    + rewrite Z.sub_diag. repeat split. cbn. lia.
  - destruct (Hfails w) as (w1 & e & Hcall & Hhandled).
    destruct (Hhooks) as (Hretry & _ & _).
    destruct (Hretry self (attempt + 1) e w1) as [w2 Hhook].
    assert (Hd : exists d, sleep_times kw !! Z.to_nat attempt = Some d).
    { apply lookup_lt_is_Some_2. lia. }
    destruct Hd as [d Hd].
    assert (Hdpos : 0 <= d).
    { rewrite Forall_forall in Hpos. apply Hpos.
      apply list_elem_of_lookup. eauto. }
    rewrite (default_callbacks_retry kw receiver self args attempt last_exception w w1 w2 e d)
      by (assumption || lia).
    destruct (IH (attempt + 1) (Some e) w2 ltac:(lia) ltac:(lia))
      as (w' & t & e' & -> & Hcount & Hlast & Hwaits & Hretries & Hfailure).
    remember [EvInvoke (Raise e); EvShouldRetry (attempt + 1) e;
              EvOnRetry (attempt + 1) e; EvSleepTime attempt e; EvSleep d]
      as prefix eqn:Hprefix.
    assert (Hpre1 : invocations prefix = [Raise e]) by (subst prefix; reflexivity).
    assert (Hpre2 : waits prefix = [d]) by (subst prefix; reflexivity).
    assert (Hpre3 : on_retry_calls prefix = [(attempt + 1, e)])
      by (subst prefix; reflexivity).
    assert (Hpre4 : on_failure_calls prefix = []) by (subst prefix; reflexivity).
    exists w', (prefix ++ t), e'.
    split; [reflexivity|].
    split; [|split; [|split; [|split]]].
    + rewrite invocations_app, length_app, Hpre1. cbn [length]. lia.
    + rewrite invocations_app, Hpre1. cbn [app].
      destruct (invocations t) as [|o os]; [discriminate|]. exact Hlast.
    + rewrite waits_app, Hwaits, Hpre2. cbn [app].
      rewrite (drop_S _ d _ Hd).
      replace (Z.to_nat (attempt + 1)) with (S (Z.to_nat attempt)) by lia.
      reflexivity.
    + rewrite on_retry_calls_app, fmap_app, Hretries, Hpre3.
      rewrite (seqZ_cons (attempt + 1)) by lia.
      cbn. f_equal. f_equal; lia.
    + rewrite on_failure_calls_app, Hfailure, Hpre4. reflexivity.
Qed.

(** X7. Default predicate and default provider, at least as many sleep
    times as retries (none of them negative), hooks that return, and a
    wrapped function that fails with a handled exception whenever it is
    called: the function is called [max_retries + 1] times, the retry hook
    after the attempts 1 to [max_retries], the waits are the first
    [max_retries] sleep times in their order, the failure hook is called once
    with [max_retries + 1] and the exception of the last call, and that
    exception is raised. *)
Theorem retryable_exhausts_retries kw receiver self args w :
  kw_should_retry_callback kw = None ->
  kw_sleep_time_callback kw = None ->
  hooks_return (configure kw) ->
  0 <= max_retries kw <= Z.of_nat (length (sleep_times kw)) ->
  Forall (fun d => 0 <= d) (sleep_times kw) ->
  (forall w0, exists w1 e,
      receiver self args w0 = (w1, Raise e) /\
      isinstance_any e (handled_exception_types (configure kw)) = true) ->
  exists w' t e,
    retryable kw receiver self args w = (w', t, Raise e) /\
    Z.of_nat (length (invocations t)) = max_retries kw + 1 /\
    last (invocations t) = Some (Raise e) /\
    waits t = take (Z.to_nat (max_retries kw)) (sleep_times kw) /\
    (on_retry_calls t).*1 = seqZ 1 (max_retries kw) /\
    on_failure_calls t = [(max_retries kw + 1, Some e)].
Proof.
  intros Hpred Hprov Hhooks [Hmin Hlen] Hpos Hfails.
  destruct (default_callbacks_exhaust kw receiver self args Hpred Hprov Hhooks
              Hlen Hpos Hfails (Z.to_nat (max_retries kw)) 0 None w
              ltac:(lia) ltac:(f_equal; lia))
    as (w' & t & e & Hrun & Hcount & Hlast & Hwaits & Hretries & Hfailure).
  exists w', t, e. unfold retryable, with_retry.
  rewrite Z.sub_0_r in Hcount, Hretries.
  repeat split; assumption.
Qed.

(** The provider raises: its exception leaves the function. *)
Lemma iteration_provider_raises c receiver self args attempt w w1 w2 w3 w4 e e' :
  receiver self args w = (w1, Raise e) ->
  isinstance_any e (handled_exception_types c) = true ->
  should_retry_callback c self attempt e w1 = (w2, Ret true) ->
  on_retry_callback c self attempt e w2 = (w3, Ret tt) ->
  sleep_time_callback c self (attempt - 1) e w3 = (w4, Raise e') ->
  iteration c receiver self args attempt w
    = (w4,
       [EvInvoke (Raise e); EvShouldRetry attempt e; EvOnRetry attempt e;
        EvSleepTime (attempt - 1) e],
       Escaped e').
Proof.
  intros Hcall Hhandled Hpred Hhook Hsleep.
  unfold iteration, try_block, except_block, invoke, on_success, should_retry,
    on_retry, sleep_time, time_sleep, bind, emit, lift, ret, raise.
  rewrite Hcall, Hhandled. cbn. rewrite Hpred. cbn. rewrite Hhook. cbn.
  rewrite Hsleep. reflexivity.
Qed.

(** The loop from [attempt] on, for a wrapped function that always fails
    and a list of sleep times that is too short. *)
Lemma default_callbacks_run_out kw receiver self args :
  kw_should_retry_callback kw = None ->
  kw_sleep_time_callback kw = None ->
  hooks_return (configure kw) ->
  Z.of_nat (length (sleep_times kw)) < max_retries kw ->
  Forall (fun d => 0 <= d) (sleep_times kw) ->
  (forall w0, exists w1 e,
      receiver self args w0 = (w1, Raise e) /\
      isinstance_any e (handled_exception_types (configure kw)) = true) ->
  forall (k : nat) attempt last_exception w,
    0 <= attempt <= Z.of_nat (length (sleep_times kw)) ->
    Z.to_nat (Z.of_nat (length (sleep_times kw)) - attempt) = k ->
    exists w' t,
      while_loop (configure kw) receiver self args attempt last_exception w
        = (w', t, Raise (IndexError "list index out of range")) /\
      Z.of_nat (length (invocations t))
        = Z.of_nat (length (sleep_times kw)) + 1 - attempt /\
      waits t = drop (Z.to_nat attempt) (sleep_times kw) /\
      on_failure_calls t = [].
Proof.
  intros Hpred Hprov Hhooks Hshort Hpos Hfails.
  induction k as [|k IH]; intros attempt last_exception w Hattempt Hk.
  - assert (attempt = Z.of_nat (length (sleep_times kw))) as -> by lia.
    destruct (Hfails w) as (w1 & e & Hcall & Hhandled).
    destruct Hhooks as (Hretry & _ & _).
    destruct (Hretry self (Z.of_nat (length (sleep_times kw)) + 1) e w1) as [w2 Hhook].
    eexists w2, _. split.
    + rewrite retry_loop_step.
      destruct (Z_lt_dec (Z.of_nat (length (sleep_times kw)))
                  (max_attempts (configure kw))) as [_ | Hge]; [|cbn in Hge; lia].
      rewrite (iteration_provider_raises _ receiver self args _ w w1 w1 w2 w2 e
                 (IndexError "list index out of range") Hcall Hhandled);
        [reflexivity | | exact Hhook |].
      * cbn. rewrite Hpred. do 2 f_equal. rewrite Z.ltb_lt. lia.
      * cbn. rewrite Hprov. rewrite list_getitem_beyond by lia. reflexivity.
    + split; [cbn; lia|]. split; [|reflexivity].
      rewrite Nat2Z.id, drop_all. reflexivity.
  - destruct (Hfails w) as (w1 & e & Hcall & Hhandled).
    destruct (Hhooks) as (Hretry & _ & _).
    destruct (Hretry self (attempt + 1) e w1) as [w2 Hhook].
    assert (Hd : exists d, sleep_times kw !! Z.to_nat attempt = Some d).
    { apply lookup_lt_is_Some_2. lia. }
    destruct Hd as [d Hd].
    assert (Hdpos : 0 <= d).
    { rewrite Forall_forall in Hpos. apply Hpos.
      apply list_elem_of_lookup. eauto. }
    rewrite (default_callbacks_retry kw receiver self args attempt last_exception
               w w1 w2 e d) by (assumption || lia).
    destruct (IH (attempt + 1) (Some e) w2 ltac:(lia) ltac:(lia))
      as (w' & t & -> & Hcount & Hwaits & Hfailure).
    remember [EvInvoke (Raise e); EvShouldRetry (attempt + 1) e;
              EvOnRetry (attempt + 1) e; EvSleepTime attempt e; EvSleep d]
      as prefix eqn:Hprefix.
    assert (Hpre1 : invocations prefix = [Raise e]) by (subst prefix; reflexivity).
    assert (Hpre2 : waits prefix = [d]) by (subst prefix; reflexivity).
    assert (Hpre4 : on_failure_calls prefix = []) by (subst prefix; reflexivity).
    exists w', (prefix ++ t).
    split; [reflexivity|]. split; [|split].
    + rewrite invocations_app, length_app, Hpre1. cbn [length]. lia.
    + rewrite waits_app, Hwaits, Hpre2. cbn [app].
      rewrite (drop_S _ d _ Hd).
      replace (Z.to_nat (attempt + 1)) with (S (Z.to_nat attempt)) by lia.
      reflexivity.
    + rewrite on_failure_calls_app, Hfailure, Hpre4. reflexivity.
Qed.

(** X8. Default predicate and default provider, fewer sleep times than
    retries: a wrapped function that keeps failing is called once more than
    there are sleep times; then the provider reads past the end of the list,
    and the [IndexError] leaves the decorated function in place of the
    failure of the wrapped function. Every sleep time was waited once; the
    failure hook is never called. *)
Theorem retryable_runs_out_of_sleep_times kw receiver self args w :
  kw_should_retry_callback kw = None ->
  kw_sleep_time_callback kw = None ->
  hooks_return (configure kw) ->
  Z.of_nat (length (sleep_times kw)) < max_retries kw ->
  Forall (fun d => 0 <= d) (sleep_times kw) ->
  (forall w0, exists w1 e,
      receiver self args w0 = (w1, Raise e) /\
      isinstance_any e (handled_exception_types (configure kw)) = true) ->
  exists w' t,
    retryable kw receiver self args w
      = (w', t, Raise (IndexError "list index out of range")) /\
    length (invocations t) = S (length (sleep_times kw)) /\
    waits t = sleep_times kw /\
    on_failure_calls t = [].
Proof.
  intros Hpred Hprov Hhooks Hshort Hpos Hfails.
  destruct (default_callbacks_run_out kw receiver self args Hpred Hprov Hhooks
              Hshort Hpos Hfails (length (sleep_times kw)) 0 None w
              ltac:(lia) ltac:(lia))
    as (w' & t & Hrun & Hcount & Hwaits & Hfailure).
  exists w', t. unfold retryable, with_retry.
  split; [exact Hrun|]. split; [lia|]. split; assumption.
Qed.

End RetryableSchedules.

(** ** memoized: keys, failures and the life of the cache *)

Lemma string_app_nil_r (s : string) : s +:+ "" = s.
Proof.
  induction s as [|a s IH]; [reflexivity|].
  change (String a s +:+ "") with (String a (s +:+ "")). f_equal. exact IH.
Qed.

Lemma string_app_assoc (s1 s2 s3 : string) : (s1 +:+ s2) +:+ s3 = s1 +:+ (s2 +:+ s3).
Proof.
  induction s1 as [|a s1 IH]; [reflexivity|].
  change (String a ((s1 +:+ s2) +:+ s3) = String a (s1 +:+ (s2 +:+ s3))).
  f_equal. exact IH.
Qed.

(** [''.join(l)] is the concatenation of the strings of [l]. *)
Lemma join_cons (s : string) (l : list string) :
  String.concat "" (s :: l) = s +:+ String.concat "" l.
Proof. destruct l; cbn; [symmetry; apply string_app_nil_r | reflexivity]. Qed.

Lemma join_app (l1 l2 : list string) :
  String.concat "" (l1 ++ l2) = String.concat "" l1 +:+ String.concat "" l2.
Proof.
  induction l1 as [|s l1 IH]; [reflexivity|].
  change ((s :: l1) ++ l2) with (s :: (l1 ++ l2)).
  rewrite !join_cons, IH, string_app_assoc. reflexivity.
Qed.

Section MemoizedFurther.
Import Memoized.
Context {Arg V D F : Type}.
Context (str : Arg -> string) (vars : Arg -> option D) (str_dict : D -> string).
Implicit Types (self : instance V F) (args : list Arg).
Implicit Types
  (receiver : pyfunction (instance V F -> list Arg -> instance V F * outcome V)).

Local Abbreviation args_key args := (generate_args_key str vars str_dict args).
Local Abbreviation key_of receiver args := (generate_key str vars str_dict receiver args).
Local Abbreviation call receiver self args :=
  (with_memoization str vars str_dict receiver args self).

(** X12. The key of a call is the name of the function followed by the
    strings of the arguments, with nothing between them. Hence the key of
    two argument lists put together is the concatenation of their keys, the
    key of a call without arguments is the bare function name, and argument
    lists that are cut differently but spell the same text have the same
    key. *)
Theorem memoized_key_is_concatenation receiver args1 args2 :
  generate_key str vars str_dict receiver args1
    = fn_name receiver +:+ generate_args_key str vars str_dict args1 /\
  generate_args_key str vars str_dict (args1 ++ args2)
    = generate_args_key str vars str_dict args1
      +:+ generate_args_key str vars str_dict args2 /\
  generate_key str vars str_dict receiver [] = fn_name receiver /\
  (generate_args_key str vars str_dict args1 = generate_args_key str vars str_dict args2 ->
   generate_key str vars str_dict receiver args1
     = generate_key str vars str_dict receiver args2).
Proof.
  assert (Hkey : forall args, key_of receiver args = fn_name receiver +:+ args_key args).
  { intros args. unfold generate_key, generate_receiver_key.
    rewrite !join_cons. change (String.concat "" []) with "".
    rewrite string_app_nil_r. reflexivity. }
  split; [apply Hkey|]. split.
  - unfold generate_args_key. rewrite map_app. apply join_app.
  - split; [rewrite Hkey; apply string_app_nil_r|].
    intros Hsame. rewrite !Hkey, Hsame. reflexivity.
Qed.

(** A call whose key is not cached runs the wrapped function once, whatever
    comes of it. *)
Lemma memoized_miss_trace receiver self args :
  cached self (key_of receiver args) = None ->
  trace_of (call receiver self args) = [EvCompute args].
Proof.
  intros Hkey.
  destruct (memoized_miss str vars str_dict receiver self args Hkey)
    as (d & _ & Hraise & Hret).
  destruct (fn_call receiver (prepare self) args) as [self' [v | e]].
  - rewrite (Hret self' v eq_refl). reflexivity.
  - rewrite (Hraise self' e eq_refl). reflexivity.
Qed.

(** X13. A failure is not cached. When the key is not in the cache and the
    wrapped function (run on the instance with its cache attribute set)
    raises, the exception leaves the decorated function, the instance is as
    the wrapped function left it, and, as long as the key is still not
    cached, the next call with that key runs the wrapped function again. *)
Theorem memoized_failure_is_not_cached receiver self args self' e :
  cached self (key_of receiver args) = None ->
  fn_call receiver (prepare self) args = (self', Raise e) ->
  call receiver self args = (self', [EvCompute args], Raise e) /\
  (cached self' (key_of receiver args) = None ->
   trace_of (call receiver self' args) = [EvCompute args]).
Proof.
  intros Hkey Hcall. split; [|apply memoized_miss_trace].
  destruct (memoized_miss str vars str_dict receiver self args Hkey)
    as (d & _ & Hraise & _).
  exact (Hraise self' e Hcall).
Qed.

(** A wrapped function that keeps the dictionary bound keeps the cache. *)
Lemma keeps_cache_dict_keeps_cache receiver :
  keeps_cache_dict receiver -> keeps_cache receiver.
Proof.
  intros Hkeeps self args self' o d Hcall Hcache.
  destruct (Hkeeps self args self' o d Hcall Hcache) as [Hbound Hsub].
  exists d. split; assumption.
Qed.

(** X14. Nothing is evicted. For a wrapped function that keeps the cache,
    after any call, whether it returns or raises, the instance has its cache
    attribute and every entry that was in the cache before the call is
    still there with its value. *)
Theorem memoized_never_evicts receiver self args self1 t o :
  keeps_cache receiver ->
  call receiver self args = (self1, t, o) ->
  (exists cache1, _cache self1 = Some cache1) /\
  (forall k u, cached self k = Some u -> cached self1 k = Some u).
Proof.
  intros Hkeeps.
  destruct (cached self (key_of receiver args)) as [u0|] eqn:Hkey.
  - rewrite (memoized_hit str vars str_dict receiver self args u0 Hkey).
    intros [= <- <- <-]. split; [|intros; assumption].
    unfold cached in Hkey. destruct (_cache self) as [cache|]; [eauto | discriminate].
  - destruct (memoized_miss str vars str_dict receiver self args Hkey)
      as (d & Hd & Hraise & Hret).
    destruct (prepare_cache self) as (d0 & Hd0 & Hsame).
    assert (d0 = d) as -> by congruence.
    destruct (fn_call receiver (prepare self) args) as [self' [v | e]] eqn:Hrun.
    + destruct (Hkeeps (prepare self) args self' (Ret v) d Hrun Hd)
        as (d' & Hd' & Hsub).
      rewrite (Hret self' v eq_refl). intros [= <- _ _]. unfold cached.
      cbn [_cache]. rewrite Hd'. split; [eauto|]. intros k u Hk.
      assert (Hother : key_of receiver args <> k) by (intros <-; unfold cached in Hkey; congruence).
      assert (Hk0 : dict_at (prepare self) d !! k = Some u) by (rewrite Hsame; exact Hk).
      pose proof (lookup_weaken _ _ k u Hk0 Hsub) as Hk'.
      cbn [mbind option_bind]. unfold dict_at at 1. cbn [dicts].
      destruct (decide (d' = d)) as [-> | Hne].
      * rewrite lookup_insert_eq. cbn -[generate_key dict_at].
        rewrite lookup_insert_ne by exact Hother.
        exact Hk'.
      * rewrite lookup_insert_ne by congruence. exact Hk'.
    + destruct (Hkeeps (prepare self) args self' (Raise e) d Hrun Hd)
        as (d' & Hd' & Hsub).
      rewrite (Hraise self' e eq_refl). intros [= <- _ _]. unfold cached.
      rewrite Hd'. split; [eauto|]. cbn. intros k u Hk.
      assert (Hk0 : dict_at (prepare self) d !! k = Some u) by (rewrite Hsame; exact Hk).
      exact (lookup_weaken _ _ k u Hk0 Hsub).
Qed.

(** X15. All memoized methods of an instance share the one [_cache], and
    the key holds neither the instance nor the class. For a first method
    that leaves [self._cache] bound to its dictionary and takes nothing out
    of it: when the key of a call of that method ([get] with 12, say) is
    also the key of a call of another ([get1] with 2), the second call is
    answered with the result of the first, and the second method is not
    run. *)
Theorem memoized_methods_share_cache receiver1 receiver2 self args1 args2 self1 t v :
  keeps_cache_dict receiver1 ->
  key_of receiver2 args2 = key_of receiver1 args1 ->
  call receiver1 self args1 = (self1, t, Ret v) ->
  call receiver2 self1 args2 = (self1, [], Ret v).
Proof.
  intros Hkeeps Hsame Hfirst.
  destruct (memoized_call str vars str_dict receiver1 self args1 self1 t v Hkeeps Hfirst)
    as (Hentry & _).
  apply memoized_hit. rewrite Hsame. exact Hentry.
Qed.

End MemoizedFurther.

(** ** lazy_property: the slot once filled, failures, shared names *)
Section LazyPropertyFurther.
Import LazyProperty LazyReads.
Context {V : Type}.
Implicit Types (receiver : pyfunction (gmap string V -> gmap string V * outcome V)).
Implicit Types (self : gmap string V).

(** X16. Once the slot ['_' + name] holds a value, however it got there,
    any number of reads in a row return that value each time, run the
    wrapped function not once, and leave the instance as it is. *)
Theorem lazy_property_reads_are_stable receiver self v (n : nat) :
  self !! key receiver = Some v ->
  read_times receiver n self = (self, [], Ret (replicate n v)).
Proof.
  intros Hslot. induction n as [|n IH]; [reflexivity|].
  cbn [read_times]. unfold bind.
  rewrite (lazy_property_cached receiver self v Hslot), IH. reflexivity.
Qed.

(** X17. A failure is not cached. When the slot is empty and the computation
    raises, the exception leaves the property, the instance is as the
    computation left it (no slot is written), and the next read runs the
    computation again as long as the slot is still empty. *)
Theorem lazy_property_failure_is_not_cached receiver self self1 e :
  self !! key receiver = None ->
  fn_call receiver self = (self1, Raise e) ->
  with_memoization receiver self = (self1, [EvCompute], Raise e) /\
  (self1 !! key receiver = None ->
   exists self2 o, with_memoization receiver self1 = (self2, [EvCompute], o)).
Proof.
  intros Hslot Hcall. split.
  - unfold with_memoization, hasattr, compute, setattr, getattr, bind, emit,
      lift, ret. cbn.
    rewrite Hslot. rewrite bool_decide_eq_false_2 by (intros [? [=]]).
    cbn. rewrite Hcall. reflexivity.
  - intros Hstill.
    unfold with_memoization, hasattr, compute, setattr, getattr, bind, emit,
      lift, ret. cbn.
    rewrite Hstill. rewrite bool_decide_eq_false_2 by (intros [? [=]]).
    cbn. destruct (fn_call receiver self1) as [self2 [v | e2]]; cbn.
    + rewrite lookup_insert_eq. eexists _, _. reflexivity.
    + eexists _, _. reflexivity.
Qed.

(** A read that returns leaves its value in the slot. *)
Lemma lazy_property_fills_slot receiver self self1 t v :
  with_memoization receiver self = (self1, t, Ret v) ->
  self1 !! key receiver = Some v.
Proof.
  destruct (self !! key receiver) as [u|] eqn:Hslot.
  - rewrite (lazy_property_cached receiver self u Hslot).
    intros [= <- _ <-]. exact Hslot.
  - unfold with_memoization, hasattr, compute, setattr, getattr, bind, emit,
      lift, ret. cbn.
    rewrite Hslot. rewrite bool_decide_eq_false_2 by (intros [? [=]]).
    cbn. destruct (fn_call receiver self) as [self2 [v' | e2]]; cbn;
      [|discriminate].
    rewrite lookup_insert_eq. intros [= <- _ <-]. apply lookup_insert_eq.
Qed.

(** X18. The slot is named after the wrapped function only. Two lazy
    properties whose functions have the same name share it: after a read of
    the first that returns [v], a read of the second on that instance returns
    [v] as well and does not run the second function. *)
Theorem lazy_property_same_name_shares_slot receiver1 receiver2 self self1 t v :
  fn_name receiver2 = fn_name receiver1 ->
  with_memoization receiver1 self = (self1, t, Ret v) ->
  with_memoization receiver2 self1 = (self1, [], Ret v).
Proof.
  intros Hname Hread. apply lazy_property_cached.
  unfold key. rewrite Hname.
  exact (lazy_property_fills_slot receiver1 self self1 t v Hread).
Qed.

End LazyPropertyFurther.

(** ** class_property: reading *)
Section ClassPropertyFurther.
Import ClassProperty AttributeRead.
Context {V : Type}.
Implicit Types (σ : gmap string (object V)).

(** X19. For a class that is true (as classes are, unless their metaclass
    defines their truth value otherwise), reading a class property through
    an instance and through the class of that instance gives the same: the
    wrapped function applied to that class (the class the instance has,
    which may be a subclass of the one that defines the property). A value
    stored under the same name in the instance's own [__dict__] does not
    hide the property. *)
Theorem class_property_read_by_instance_and_type σ x o k c name receiver :
  σ !! x = Some o ->
  ob_type o = k ->
  σ !! k = Some c ->
  ob_mro c <> [] ->
  ob_truth c = true ->
  type_lookup σ (ob_type c) name = None ->
  exposed_on_type σ k name (class_property receiver) ->
  getattr σ x name = outcome_map Plain (fn_call receiver k) /\
  getattr σ k name = outcome_map Plain (fn_call receiver k).
Proof.
  intros Hx Htype Hk Hclass Htruth Hmeta Hexposed. unfold exposed_on_type in Hexposed.
  assert (Hget : forall obj, __get__ σ (class_property receiver) obj (Some k)
                             = fn_call receiver k).
  { intros obj. unfold __get__, truth. rewrite Hk, Htruth. reflexivity. }
  unfold getattr. rewrite Hx, Hk, Htype, Hexposed, Hmeta. split.
  - rewrite Hget. reflexivity.
  - destruct (ob_mro c) as [|b bs]; [congruence|]. rewrite Hget. reflexivity.
Qed.

End ClassPropertyFurther.

(** ** timed: a sink that fails *)
Section TimedFurther.
Import Timed.
Context {Obj Args T W Num : Type}.
Context (time_time : W -> W * Num) (elapsed_ms : Num -> Num -> Num) (one : Num).
Implicit Types (receiver : pyfunction (Obj -> Args -> W -> W * outcome T)).

(** X20. The call of [record_timing] is not guarded. When the wrapped call
    has returned and [record_timing] raises, that exception leaves the
    decorated function and the value of the wrapped call is lost; when
    [record_timing] returns, the value is returned unchanged. *)
Theorem timed_sink_failure_replaces_result
    stats_client prefix sample_rate decorator record receiver self args w w1 w3 result o :
  timed time_time elapsed_ms one stats_client prefix sample_rate = Ret decorator ->
  stats_client ≫= record_timing = Some record ->
  fn_call receiver self args (time_time w).1 = (w1, Ret result) ->
  record (match prefix with Some p => p +:+ "." | None => "" end +:+ fn_name receiver)
         (elapsed_ms (time_time w1).2 (time_time w).2)
         (match sample_rate with Some r => r | None => one end)
         (time_time w1).1 = (w3, o) ->
  decorator receiver self args w
    = (w3,
       [EvInvoke (Ret result);
        EvRecordTiming
          (match prefix with Some p => p +:+ "." | None => "" end +:+ fn_name receiver)
          (elapsed_ms (time_time w1).2 (time_time w).2)
          (match sample_rate with Some r => r | None => one end)],
       match o with Ret _ => Ret result | Raise e => Raise e end).
Proof.
  intros Hbuilt Hrecord.
  destruct (timed_built _ _ _ _ _ _ _ Hbuilt) as (record' & _ & Hrecord' & ->).
  assert (record' = record) as -> by congruence.
  unfold with_timing, bind, emit, lift, ret.
  destruct (time_time w) as [w0 start_time]. cbn [fst snd].
  intros Hcall. rewrite Hcall.
  destruct (time_time w1) as [w2 end_time]. cbn [fst snd].
  intros Hsink. rewrite Hsink. destruct o as [[]|e]; reflexivity.
Qed.

End TimedFurther.

(** * The further properties at work on the sample programs *)
Section FurtherInstances.
Import Samples MoreSamples.

Lemma retryable_returns_last_result_witness :
  result_of (Retryable.retryable default_kwargs failing_once tt tt 0%nat) = Ret 42 /\
  exists pre n,
    trace_of (Retryable.retryable default_kwargs failing_once tt tt 0%nat)
      = pre ++ [Retryable.EvInvoke (Ret 42); Retryable.EvOnSuccess n] /\
    Retryable.on_failure_calls
      (trace_of (Retryable.retryable default_kwargs failing_once tt tt 0%nat)) = [].
Proof.
  assert (Hresult : result_of (Retryable.retryable default_kwargs failing_once tt tt 0%nat)
                    = Ret 42) by (vm_compute; reflexivity).
  split; [exact Hresult|].
  exact (retryable_returns_last_result default_kwargs failing_once tt tt 0%nat 42 Hresult).
Defined.

Lemma retryable_first_attempt_succeeds_witness :
  Retryable.retryable default_kwargs always_returning tt tt 0%nat
    = (1%nat, [Retryable.EvInvoke (Ret 42); Retryable.EvOnSuccess 1], Ret 42).
Proof.
  apply (retryable_first_attempt_succeeds default_kwargs always_returning tt tt
           0%nat 1%nat 1%nat 42); [cbn; lia | reflexivity | reflexivity].
Defined.

Lemma retryable_without_attempts_witness :
  Retryable.max_retries negative_retries_kwargs < 0 /\
  Retryable.retryable negative_retries_kwargs always_failing tt tt 0%nat
    = (0%nat, [Retryable.EvOnFailure 0 None],
       Raise (TypeError "exceptions must derive from BaseException")).
Proof.
  assert (Hneg : Retryable.max_retries negative_retries_kwargs < 0) by (cbn; lia).
  split; [exact Hneg|].
  exact (retryable_without_attempts negative_retries_kwargs always_failing tt tt
           0%nat 0%nat Hneg eq_refl).
Defined.

Lemma retryable_predicate_veto_witness :
  Retryable.retryable veto_kwargs always_failing tt tt 0%nat
    = (1%nat,
       [Retryable.EvInvoke (Raise boom); Retryable.EvShouldRetry 1 boom;
        Retryable.EvOnFailure 1 (Some boom)],
       Raise boom).
Proof.
  apply (retryable_predicate_veto veto_kwargs always_failing tt tt
           0%nat 1%nat 1%nat 1%nat boom);
    [cbn; lia | reflexivity | reflexivity | reflexivity | reflexivity].
Defined.

Lemma retryable_retry_hook_without_retry_witness :
  Retryable.retryable eager_kwargs always_failing tt tt 0%nat
    = (1%nat,
       [Retryable.EvInvoke (Raise boom); Retryable.EvShouldRetry 1 boom;
        Retryable.EvOnRetry 1 boom; Retryable.EvSleepTime 0 boom; Retryable.EvSleep 0;
        Retryable.EvOnFailure 1 (Some boom)],
       Raise boom).
Proof.
  apply (retryable_retry_hook_without_retry eager_kwargs always_failing tt tt
           0%nat 1%nat 1%nat 1%nat 1%nat 1%nat boom 0);
    [reflexivity | reflexivity | reflexivity | reflexivity | reflexivity
    | reflexivity | lia | reflexivity].
Defined.

Lemma retryable_success_hook_raises_witness :
  exists rest,
    trace_of (Retryable.retryable failing_success_hook_kwargs always_returning tt tt 0%nat)
      = Retryable.EvInvoke (Ret 42) :: Retryable.EvOnSuccess 1
          :: Retryable.EvShouldRetry 1 (ValueError "hook") :: rest.
Proof.
  apply (retryable_success_hook_raises failing_success_hook_kwargs always_returning
           tt tt 0%nat 1%nat 1%nat 42 (ValueError "hook"));
    [cbn; lia | reflexivity | reflexivity | reflexivity].
Defined.

Lemma retryable_predicate_raises_witness :
  Retryable.retryable failing_predicate_kwargs always_failing tt tt 0%nat
    = (1%nat, [Retryable.EvInvoke (Raise boom); Retryable.EvShouldRetry 1 boom],
       Raise interrupt).
Proof.
  apply (retryable_predicate_raises failing_predicate_kwargs always_failing tt tt
           0%nat 1%nat 1%nat boom interrupt);
    [cbn; lia | reflexivity | reflexivity | reflexivity].
Defined.

Lemma always_failing_is_handled (kw : Retryable.kwargs unit nat) :
  isinstance_any boom (Retryable.handled_exception_types (Retryable.configure kw)) = true ->
  forall w0 : nat, exists (w1 : nat) e,
    always_failing tt tt w0 = (w1, Raise e) /\
    isinstance_any e (Retryable.handled_exception_types (Retryable.configure kw)) = true.
Proof. intros Hhandled w0. exists (S w0), boom. split; [reflexivity | exact Hhandled]. Defined.

Lemma no_hooks_return (kw : Retryable.kwargs unit nat) :
  Retryable.kw_on_retry_callback kw = None ->
  Retryable.kw_on_success_callback kw = None ->
  Retryable.kw_on_failure_callback kw = None ->
  Retryable.hooks_return (Retryable.configure kw).
Proof.
  intros H1 H2 H3. unfold Retryable.hooks_return, Retryable.configure. cbn.
  rewrite H1, H2, H3. repeat split; intros; eexists; reflexivity.
Defined.

Lemma retryable_exhausts_retries_witness :
  exists w' t e,
    Retryable.retryable long_schedule_kwargs always_failing tt tt 0%nat = (w', t, Raise e) /\
    Z.of_nat (length (Retryable.invocations t)) = 6 /\
    last (Retryable.invocations t) = Some (Raise e) /\
    Retryable.waits t = [1; 1; 2; 3; 5] /\
    (Retryable.on_retry_calls t).*1 = [1; 2; 3; 4; 5] /\
    Retryable.on_failure_calls t = [(6, Some e)].
Proof.
  apply (retryable_exhausts_retries long_schedule_kwargs always_failing tt tt 0%nat
           eq_refl eq_refl).
  - apply no_hooks_return; reflexivity.
  - cbn. lia.
  - repeat constructor; discriminate.
  - apply always_failing_is_handled. reflexivity.
Defined.

Lemma retryable_runs_out_of_sleep_times_witness :
  exists w' t,
    Retryable.retryable short_schedule_kwargs always_failing tt tt 0%nat
      = (w', t, Raise (IndexError "list index out of range")) /\
    length (Retryable.invocations t) = 3%nat /\
    Retryable.waits t = [1; 2] /\
    Retryable.on_failure_calls t = [].
Proof.
  apply (retryable_runs_out_of_sleep_times short_schedule_kwargs always_failing tt tt
           0%nat eq_refl eq_refl).
  - apply no_hooks_return; reflexivity.
  - cbn. lia.
  - repeat constructor; discriminate.
  - apply always_failing_is_handled. reflexivity.
Defined.

Lemma memoized_key_is_concatenation_witness :
  Memoized.generate_key str_int vars_int str_no_dict square [1; 23]
    = Memoized.generate_key str_int vars_int str_no_dict square [12; 3].
Proof.
  apply (memoized_key_is_concatenation str_int vars_int str_no_dict square
           [1; 23] [12; 3]).
  reflexivity.
Defined.

Lemma memoized_failure_is_not_cached_witness :
  Memoized.with_memoization str_int vars_int str_no_dict root [-4] fresh_instance
    = (Memoized.Instance (Some 0%nat) {[0%nat := ∅]} tt,
       [Memoized.EvCompute [-4]], Raise boom) /\
  trace_of (Memoized.with_memoization str_int vars_int str_no_dict root [-4]
              (Memoized.Instance (Some 0%nat) {[0%nat := ∅]} tt))
    = [Memoized.EvCompute [-4]].
Proof.
  assert (Hmiss : Memoized.cached fresh_instance
                    (Memoized.generate_key str_int vars_int str_no_dict root [-4])
                  = None) by (vm_compute; reflexivity).
  assert (Hfails : fn_call root (Memoized.prepare fresh_instance) [-4]
                   = (Memoized.Instance (Some 0%nat) {[0%nat := ∅]} tt, Raise boom))
    by (vm_compute; reflexivity).
  destruct (memoized_failure_is_not_cached str_int vars_int str_no_dict root
              fresh_instance [-4] (Memoized.Instance (Some 0%nat) {[0%nat := ∅]} tt) boom
              Hmiss Hfails) as [Hrun Hagain].
  split; [exact Hrun | apply Hagain; vm_compute; reflexivity].
Defined.

Lemma memoized_never_evicts_witness :
  (exists cache1, Memoized._cache instance_with_9_and_16 = Some cache1) /\
  Memoized.cached instance_with_9_and_16 "square3" = Some 9.
Proof.
  assert (Hrun : Memoized.with_memoization str_int vars_int str_no_dict square [4]
                   instance_with_9
                 = (instance_with_9_and_16, [Memoized.EvCompute [4]], Ret 16))
    by (vm_compute; reflexivity).
  destruct (memoized_never_evicts str_int vars_int str_no_dict square
              instance_with_9 [4] instance_with_9_and_16 [Memoized.EvCompute [4]]
              (Ret 16) (keeps_cache_dict_keeps_cache square square_keeps_cache) Hrun)
    as [Hbound Hkept].
  split; [exact Hbound | apply Hkept; vm_compute; reflexivity].
Defined.

Lemma get_keeps_cache : Memoized.keeps_cache_dict get.
Proof.
  intros self args self' o d Hcall Hcache.
  cbn in Hcall. injection Hcall as <- _. split; [exact Hcache | reflexivity].
Defined.

Lemma memoized_methods_share_cache_witness :
  Memoized.with_memoization str_int vars_int str_no_dict get1 [2]
    (Memoized.Instance (Some 0%nat) {[0%nat := {["get12" := 1]}]} tt)
  = (Memoized.Instance (Some 0%nat) {[0%nat := {["get12" := 1]}]} tt, [], Ret 1).
Proof.
  apply (memoized_methods_share_cache str_int vars_int str_no_dict get get1
           fresh_instance [12] [2]
           (Memoized.Instance (Some 0%nat) {[0%nat := {["get12" := 1]}]} tt)
           [Memoized.EvCompute [12]] 1 get_keeps_cache);
    vm_compute; reflexivity.
Defined.

(** A wrapped function that binds [self._cache] to another dictionary takes
    its own entry out of reach: the result is written into the dictionary
    that was bound before the call, and the same call runs the function
    again. *)
Example detach_run :
  exists self1 self2,
    Memoized.with_memoization str_int vars_int str_no_dict detach [5] fresh_instance
      = (self1, [Memoized.EvCompute [5]], Ret 5) /\
    Memoized.cached self1 "detach5" = None /\
    Memoized.dict_at self1 0%nat !! "detach5" = Some 5 /\
    Memoized.with_memoization str_int vars_int str_no_dict detach [5] self1
      = (self2, [Memoized.EvCompute [5]], Ret 5).
Proof. eexists _, _. repeat split; vm_compute; reflexivity. Qed.

Lemma lazy_property_reads_are_stable_witness :
  LazyReads.read_times ticket 3 (<["_ticket" := 1]> ∅)
    = (<["_ticket" := 1]> ∅, [], Ret [1; 1; 1]).
Proof.
  apply (lazy_property_reads_are_stable ticket (<["_ticket" := 1]> ∅) 1 3).
  reflexivity.
Defined.

Lemma lazy_property_failure_is_not_cached_witness :
  LazyProperty.with_memoization broken ∅
    = (<["tried" := 1]> ∅, [LazyProperty.EvCompute], Raise boom) /\
  exists self2 o,
    LazyProperty.with_memoization broken (<["tried" := 1]> ∅)
      = (self2, [LazyProperty.EvCompute], o).
Proof.
  assert (Hslot : (∅ : gmap string Z) !! LazyProperty.key broken = None)
    by reflexivity.
  assert (Hcall : fn_call broken ∅ = (<["tried" := 1]> ∅, Raise boom))
    by reflexivity.
  destruct (lazy_property_failure_is_not_cached broken ∅ (<["tried" := 1]> ∅) boom
              Hslot Hcall) as [Hrun Hagain].
  split; [exact Hrun | apply Hagain; reflexivity].
Defined.

Lemma lazy_property_same_name_shares_slot_witness :
  LazyProperty.with_memoization other_ticket
    (<["_ticket" := 1]> (<["issued" := 1]> ∅))
  = (<["_ticket" := 1]> (<["issued" := 1]> ∅), [], Ret 1).
Proof.
  apply (lazy_property_same_name_shares_slot ticket other_ticket ∅
           (<["_ticket" := 1]> (<["issued" := 1]> ∅)) [LazyProperty.EvCompute] 1);
    reflexivity.
Defined.

Lemma class_property_read_by_instance_and_type_witness :
  AttributeRead.getattr named_store "d" "x" = Ret (ClassProperty.Plain 7) /\
  AttributeRead.getattr named_store "Derived" "x" = Ret (ClassProperty.Plain 7).
Proof.
  apply (class_property_read_by_instance_and_type named_store "d"
           (ClassProperty.Object "Derived" [] {["x" := ClassProperty.Plain 9]} true)
           "Derived"
           (ClassProperty.Object "type" ["Derived"; "Base"; "object"] ∅ true)
           "x" name_length);
    [reflexivity | reflexivity | reflexivity | discriminate | reflexivity
    | reflexivity | reflexivity].
Defined.

(** A class that is false is not taken for the owner: read through the
    class, the wrapped function gets [NoneType]; read through an instance,
    it gets the class. *)
Example false_class_reads :
  AttributeRead.getattr false_class_store "e" "x" = Ret (ClassProperty.Plain 5) /\
  AttributeRead.getattr false_class_store "Empty" "x" = Ret (ClassProperty.Plain 8).
Proof. split; vm_compute; reflexivity. Qed.

Lemma timed_sink_failure_replaces_result_witness :
  Timed.with_timing clock milliseconds (fun _ _ _ w => (w, Raise boom)) "db." 1
    fetch tt tt 0%nat
  = (2%nat, [Timed.EvInvoke (Ret 7); Timed.EvRecordTiming "db.fetch" 1000 1],
     Raise boom).
Proof.
  exact (timed_sink_failure_replaces_result clock milliseconds 1
           (Some failing_client) (Some "db") None _
           (fun _ _ _ w => (w, Raise boom)) fetch tt tt 0%nat 1%nat 2%nat 7
           (Raise boom) eq_refl eq_refl eq_refl eq_refl).
Defined.

End FurtherInstances.
